(** * Display-weather-map app: the location/weather resolver of [WeatherMap]

    A shallow embedding of [src/src/App.tsx] (the [WeatherMap] component):
    the weather-code normalisation, the display-name derivation, the
    assembly of the weather record and the forecast, the recent-locations
    bookkeeping and the three entry points [fetchWeather], [searchCity] and
    [getCurrentLocation] with their try/catch/finally structure.

    Conventions.
    - A JavaScript number is modelled by its value: NaN, an infinity, or a
      rational (every finite double is a rational; [-0] is identified with
      [0], which is what [===], [<=] and string rendering do as well).
    - Strings that are only stored, compared with the empty string and
      concatenated are [string]; the search box content, on which
      [String.prototype.trim] works, is a list of UTF-16 code units.
    - An [await]ed network call is a call whose result is supplied by the
      environment; one handler runs from start to end (overlapping
      handlers are not modelled).
    - A body that parses is either a document of the shape the services
      publish (objects, arrays and strings where the code reads them;
      numbers in it may be [null], arrays may have any length, address
      keys may be absent) or a value off which the code cannot read what
      it reads: then the reading raises a TypeError inside the [try].
    - What the platform calls back later (the position callbacks) is an
      action of its own: a call returns when its source function
      returns. *)

From Stdlib Require Import ZArith QArith Qround Qabs List String Ascii Bool Lia Lqa NArith.
Import ListNotations.

Local Open Scope string_scope.

(** ** JavaScript numbers and values *)

Module JS.

Inductive number : Type :=
| NaN
| Infinity (negative : bool)
| Finite (q : Q).

Definition of_Z (z : Z) : number := Finite (inject_Z z).

(** [x === y] on numbers. *)
Definition strict_eq (x y : number) : bool :=
  match x, y with
  | Finite p, Finite q => Qeq_bool p q
  | Infinity a, Infinity b => Bool.eqb a b
  | _, _ => false
  end.

(** [x <= y] on numbers. *)
Definition le (x y : number) : bool :=
  match x, y with
  | NaN, _ | _, NaN => false
  | Infinity a, Infinity b => implb b a
  | Infinity a, Finite _ => a
  | Finite _, Infinity b => negb b
  | Finite p, Finite q => Qle_bool p q
  end.

(** [Math.round]: the closest integer, a tie going towards +Infinity. *)
Definition Math_round (x : number) : number :=
  match x with
  | Finite q => of_Z (Qfloor (q + (1 # 2)))
  | _ => x
  end.

(** What a JSON document or an out-of-range array index can put where
    the code expects a number. *)
Inductive value : Type :=
| Undefined
| Null
| Num (x : number).

Definition ToNumber (v : value) : number :=
  match v with
  | Undefined => NaN
  | Null => of_Z 0
  | Num x => x
  end.

(** [v === n] for a number [n]: no coercion. *)
Definition value_strict_eq (v : value) (n : number) : bool :=
  match v with
  | Num x => strict_eq x n
  | _ => false
  end.

(** [v <= n] for a number [n]: [v] is coerced with ToNumber. *)
Definition value_le (v : value) (n : number) : bool :=
  le (ToNumber v) n.

(** [arr[i]]: [undefined] out of range. *)
Definition index (arr : list value) (i : nat) : value :=
  nth i arr Undefined.

End JS.

(** ** Weather code to condition label *)

Definition label_clear : string := "맑음".
Definition label_partly_cloudy : string := "구름 조금".
Definition label_fog : string := "안개".
Definition label_rain : string := "비".
Definition label_snow : string := "눈".
Definition label_showers : string := "소나기".
Definition label_thunderstorm : string := "뇌우".

Definition weatherCodeToCondition (code : JS.value) : string :=
  if JS.value_strict_eq code (JS.of_Z 0) then label_clear
  else if JS.value_le code (JS.of_Z 3) then label_partly_cloudy
  else if JS.value_le code (JS.of_Z 48) then label_fog
  else if JS.value_le code (JS.of_Z 67) then label_rain
  else if JS.value_le code (JS.of_Z 77) then label_snow
  else if JS.value_le code (JS.of_Z 82) then label_showers
  else if JS.value_le code (JS.of_Z 86) then label_snow
  else label_thunderstorm.

(** ** Data model of the component *)

Module WeatherData.
Record t : Type := {
  location : string;
  country : string;
  temp : JS.number;
  feelsLike : JS.number;
  condition : string;
  humidity : JS.value;
  windSpeed : JS.number;
  visibility : JS.number;
  pressure : JS.number;
  uv : JS.number;
  icon : string;
  sunrise : option string;
  sunset : option string
}.
End WeatherData.

Module ForecastDay.
Record t : Type := {
  date : string;
  maxTemp : JS.number;
  minTemp : JS.number;
  condition : string;
  icon : string
}.
End ForecastDay.

Module LocationData.
Record t : Type := {
  name : string;
  lat : JS.number;
  lon : JS.number;
  weather : option WeatherData.t;
  forecast : option (list ForecastDay.t)
}.
End LocationData.

(** ** The upstream documents *)

(** The [current] object of the weather document. *)
Module Current.
Record t : Type := {
  temperature_2m : JS.value;
  relative_humidity_2m : JS.value;
  apparent_temperature : JS.value;
  weather_code : JS.value;
  wind_speed_10m : JS.value;
  surface_pressure : JS.value
}.
End Current.

(** The [daily] object of the weather document: arrays of any length. *)
Module Daily.
Record t : Type := {
  time : list string;
  weather_code : list JS.value;
  temperature_2m_max : list JS.value;
  temperature_2m_min : list JS.value;
  sunrise : list string;
  sunset : list string
}.
End Daily.

(** A weather document with its [current] and [daily] objects. *)
Module WeatherJson.
Record t : Type := {
  current : Current.t;
  daily : Daily.t
}.
End WeatherJson.

(** The [address] object of a reverse-geocode document; an absent key
    reads as [undefined], here [None]. *)
Module Address.
Record t : Type := {
  neighbourhood : option string;
  suburb : option string;
  village : option string;
  hamlet : option string;
  city_district : option string;
  district : option string;
  borough : option string;
  city : option string;
  town : option string;
  county : option string;
  country : option string
}.

(** The object [{}]. *)
Definition empty : t :=
  {| neighbourhood := None; suburb := None; village := None; hamlet := None;
     city_district := None; district := None; borough := None;
     city := None; town := None; county := None; country := None |}.
End Address.

(** A reverse-geocode document: any JSON value but [null]. [address] is
    [None] when the value has no truthy [address]: the key is absent or
    holds [null], or the value is no object at all. *)
Module GeoJson.
Record t : Type := {
  address : option Address.t
}.
End GeoJson.

(** One element of a forward-geocode result array. *)
Module SearchHit.
Record t : Type := {
  lat : string;
  lon : string
}.
End SearchHit.

(** ** Pure steps of [fetchWeather] *)

(** [if (field) locationParts.push(field)]: the empty string is falsy. *)
Definition push_if_truthy (field : option string) (parts : list string) : list string :=
  match field with
  | Some s => if (s =? "")%string then parts else parts ++ [s]
  | None => parts
  end.

Definition locationParts (addr : Address.t) : list string :=
  let parts := [] in
  let parts := push_if_truthy (Address.neighbourhood addr) parts in
  let parts := push_if_truthy (Address.suburb addr) parts in
  let parts := push_if_truthy (Address.village addr) parts in
  let parts := push_if_truthy (Address.hamlet addr) parts in
  let parts := push_if_truthy (Address.city_district addr) parts in
  let parts := push_if_truthy (Address.district addr) parts in
  let parts := push_if_truthy (Address.borough addr) parts in
  let parts := push_if_truthy (Address.city addr) parts in
  let parts := push_if_truthy (Address.town addr) parts in
  let parts := push_if_truthy (Address.county addr) parts in
  parts.

Definition unknown_location : string := "알 수 없는 위치".

Definition locationName (addr : Address.t) : string :=
  if (0 <? List.length (locationParts addr))%nat
  then String.concat ", " (firstn 2 (locationParts addr))
  else unknown_location.

(** [s.split(sep)] for a one-character separator. *)
Fixpoint split (sep : ascii) (s : string) : list string :=
  match s with
  | EmptyString => [EmptyString]
  | String c rest =>
      if Ascii.eqb c sep then EmptyString :: split sep rest
      else match split sep rest with
           | piece :: pieces => String c piece :: pieces
           | [] => [String c EmptyString]
           end
  end.

(** [arr[0]?.split('T')[1]] *)
Definition time_of_day (arr : list string) : option string :=
  match arr with
  | [] => None
  | s :: _ => nth_error (split "T"%char s) 1
  end.

(** [addr.country || ''] *)
Definition or_empty (field : option string) : string :=
  match field with
  | Some s => s
  | None => ""
  end.

Definition weather (weatherData : WeatherJson.t) (addr : Address.t) : WeatherData.t :=
  let current := WeatherJson.current weatherData in
  let daily := WeatherJson.daily weatherData in
  {| WeatherData.location := locationName addr;
     WeatherData.country := or_empty (Address.country addr);
     WeatherData.temp := JS.Math_round (JS.ToNumber (Current.temperature_2m current));
     WeatherData.feelsLike := JS.Math_round (JS.ToNumber (Current.apparent_temperature current));
     WeatherData.condition := weatherCodeToCondition (Current.weather_code current);
     WeatherData.humidity := Current.relative_humidity_2m current;
     WeatherData.windSpeed := JS.Math_round (JS.ToNumber (Current.wind_speed_10m current));
     WeatherData.visibility := JS.of_Z 10;
     WeatherData.pressure := JS.Math_round (JS.ToNumber (Current.surface_pressure current));
     WeatherData.uv := JS.of_Z 3;
     WeatherData.icon := "";
     WeatherData.sunrise := time_of_day (Daily.sunrise daily);
     WeatherData.sunset := time_of_day (Daily.sunset daily) |}.

(** [arr.map((x, i) => f x i)], the index starting at [start]. *)
Fixpoint mapi_from {A B : Type} (start : nat) (f : A -> nat -> B) (arr : list A) : list B :=
  match arr with
  | [] => []
  | x :: rest => f x start :: mapi_from (S start) f rest
  end.

Definition mapi {A B : Type} (f : A -> nat -> B) (arr : list A) : list B :=
  mapi_from 0 f arr.

Definition forecast (weatherData : WeatherJson.t) : list ForecastDay.t :=
  let daily := WeatherJson.daily weatherData in
  mapi (fun date i =>
          {| ForecastDay.date := date;
             ForecastDay.maxTemp :=
               JS.Math_round (JS.ToNumber (JS.index (Daily.temperature_2m_max daily) i));
             ForecastDay.minTemp :=
               JS.Math_round (JS.ToNumber (JS.index (Daily.temperature_2m_min daily) i));
             ForecastDay.condition :=
               weatherCodeToCondition (JS.index (Daily.weather_code daily) i);
             ForecastDay.icon := "" |})
       (firstn 5 (Daily.time daily)).

Definition newLocation (lat lon : JS.number) (weatherData : WeatherJson.t)
    (addr : Address.t) : LocationData.t :=
  {| LocationData.name := WeatherData.location (weather weatherData addr);
     LocationData.lat := lat;
     LocationData.lon := lon;
     LocationData.weather := Some (weather weatherData addr);
     LocationData.forecast := Some (forecast weatherData) |}.

(** The updater passed to [setRecentLocations]. *)
Definition recentLocationsUpdater (lat lon : JS.number) (newLocation : LocationData.t)
    (prev : list LocationData.t) : list LocationData.t :=
  let filtered :=
    filter (fun loc => negb (JS.strict_eq (LocationData.lat loc) lat
                             && JS.strict_eq (LocationData.lon loc) lon)) prev in
  firstn 5 (newLocation :: filtered).

(** ** The search box content: UTF-16 code units *)

Definition jsstring : Type := list N.

(** WhiteSpace and LineTerminator of ECMAScript, the code units that
    [String.prototype.trim] strips. *)
Definition is_white_space (c : N) : bool :=
  ((9 <=? c) && (c <=? 13)
   || (c =? 32) || (c =? 160) || (c =? 5760)
   || (8192 <=? c) && (c <=? 8202)
   || (c =? 8232) || (c =? 8233) || (c =? 8239) || (c =? 8287)
   || (c =? 12288) || (c =? 65279))%N.

Fixpoint trim_start (s : jsstring) : jsstring :=
  match s with
  | [] => []
  | c :: rest => if is_white_space c then trim_start rest else s
  end.

Definition trim_end (s : jsstring) : jsstring :=
  rev (trim_start (rev s)).

Definition trim (s : jsstring) : jsstring :=
  trim_end (trim_start s).

(** The empty string is the only falsy string. *)
Definition truthy (s : jsstring) : bool :=
  match s with
  | [] => false
  | _ :: _ => true
  end.

Definition is_high_surrogate (c : N) : bool := ((55296 <=? c) && (c <=? 56319))%N.
Definition is_low_surrogate (c : N) : bool := ((56320 <=? c) && (c <=? 57343))%N.

(** [encodeURIComponent] raises a URIError exactly on a lone surrogate. *)
Fixpoint well_formed (s : jsstring) : bool :=
  match s with
  | [] => true
  | c :: rest =>
      if is_high_surrogate c then
        match rest with
        | d :: rest' => is_low_surrogate d && well_formed rest'
        | [] => false
        end
      else negb (is_low_surrogate c) && well_formed rest
  end.

(** ** Component state, observable effects and the effect monad *)

Record UiState : Type := {
  selectedLocation : LocationData.t;
  searchQuery : jsstring;
  loading : bool;
  recentLocations : list LocationData.t
}.

Inductive request : Type :=
| WeatherRequest (lat lon : JS.number)
| ReverseRequest (lat lon : JS.number)
| SearchRequest (q : jsstring).

(** What a [catch] clause can receive. *)
Inductive exn : Type :=
| FetchFailed                 (* [fetch] rejected: network error *)
| ErrorThrown (msg : string)  (* [throw new Error(msg)] *)
| BodyNotJson                 (* [response.json()] rejected *)
| TypeError                   (* a property read off [null] or [undefined] *)
| URIError.                   (* [encodeURIComponent] on a lone surrogate *)

Inductive toast_kind : Type := success | error | info.

Inductive event : Type :=
| Fetch (r : request)
| Toast (k : toast_kind) (msg : string)
| ConsoleError (msg : string) (e : exn)
| GetCurrentPosition (enableHighAccuracy : bool) (timeout maximumAge : Z).

Record World : Type := {
  ui : UiState;
  trace : list event   (* oldest first *)
}.

Inductive outcome (A : Type) : Type :=
| Returned (a : A)
| Threw (e : exn).
Arguments Returned {A} a.
Arguments Threw {A} e.

Definition Eff (A : Type) : Type := World -> outcome A * World.

Definition ret {A : Type} (a : A) : Eff A := fun w => (Returned a, w).

Definition throw {A : Type} (e : exn) : Eff A := fun w => (Threw e, w).

Definition bind {A B : Type} (m : Eff A) (k : A -> Eff B) : Eff B :=
  fun w =>
    match m w with
    | (Returned a, w') => k a w'
    | (Threw e, w') => (Threw e, w')
    end.

Declare Scope eff_scope.
Delimit Scope eff_scope with eff.
Notation "x <- m ;; k" := (bind m (fun x => k))
  (at level 61, m at next level, right associativity) : eff_scope.
Notation "m ;; k" := (bind m (fun _ => k))
  (at level 61, right associativity) : eff_scope.
Local Open Scope eff_scope.

(** [try { body } catch (e) { handler e } finally { finalizer }] *)
Definition try_catch_finally {A : Type} (body : Eff A) (handler : exn -> Eff A)
    (finalizer : Eff unit) : Eff A :=
  fun w =>
    let (r, w1) :=
      match body w with
      | (Returned a, w') => (Returned a, w')
      | (Threw e, w') => handler e w'
      end in
    match finalizer w1 with
    | (Returned _, w2) => (r, w2)
    | (Threw e, w2) => (Threw e, w2)
    end.

Definition emit (e : event) : Eff unit :=
  fun w => (Returned tt, {| ui := ui w; trace := trace w ++ [e] |}).

Definition modify (f : UiState -> UiState) : Eff unit :=
  fun w => (Returned tt, {| ui := f (ui w); trace := trace w |}).

Definition read {A : Type} (f : UiState -> A) : Eff A :=
  fun w => (Returned (f (ui w)), w).

Definition setSelectedLocation (l : LocationData.t) : Eff unit :=
  modify (fun s => {| selectedLocation := l; searchQuery := searchQuery s;
                      loading := loading s; recentLocations := recentLocations s |}).

Definition setSearchQuery (q : jsstring) : Eff unit :=
  modify (fun s => {| selectedLocation := selectedLocation s; searchQuery := q;
                      loading := loading s; recentLocations := recentLocations s |}).

Definition setLoading (b : bool) : Eff unit :=
  modify (fun s => {| selectedLocation := selectedLocation s; searchQuery := searchQuery s;
                      loading := b; recentLocations := recentLocations s |}).

Definition setRecentLocations (f : list LocationData.t -> list LocationData.t) : Eff unit :=
  modify (fun s => {| selectedLocation := selectedLocation s; searchQuery := searchQuery s;
                      loading := loading s; recentLocations := f (recentLocations s) |}).

Definition toast (k : toast_kind) (msg : string) : Eff unit := emit (Toast k msg).

Definition console_error (msg : string) (e : exn) : Eff unit := emit (ConsoleError msg e).

(** *** The network, as the environment answers it *)

(** What [json()] resolves to. [Shaped]: a document with the objects,
    arrays and strings the code reads off it. [Misshaped]: a JSON value
    off which a read of the code raises a TypeError: the reverse-geocode
    body [null]; a weather body that is [null] or lacks [current],
    [daily] or an array that is read from [daily]; a search body that is
    not an array of places. *)
Inductive parsed (A : Type) : Type :=
| Shaped (document : A)
| Misshaped.
Arguments Shaped {A} document.
Arguments Misshaped {A}.

Record response (A : Type) : Type := {
  ok : bool;
  body : option (parsed A)   (* [None]: the body does not parse, [json()] rejects *)
}.
Arguments ok {A} r.
Arguments body {A} r.

Inductive reply (A : Type) : Type :=
| NetworkError
| Responded (r : response A).
Arguments NetworkError {A}.
Arguments Responded {A} r.

(** [await fetch(url)]: the request goes out, then the promise settles. *)
Definition fetch {A : Type} (r : request) (answer : reply A) : Eff (response A) :=
  emit (Fetch r) ;;
  match answer with
  | NetworkError => throw FetchFailed
  | Responded resp => ret resp
  end.

(** [await response.json()] *)
Definition json {A : Type} (resp : response A) : Eff (parsed A) :=
  match body resp with
  | Some a => ret a
  | None => throw BodyNotJson
  end.

(** The reads of the code off a parsed body. *)
Definition dereference {A : Type} (data : parsed A) : Eff A :=
  match data with
  | Shaped document => ret document
  | Misshaped => throw TypeError
  end.

(** ** [fetchWeather] *)

Definition fetchWeather (lat lon : JS.number)
    (weatherAnswer : reply WeatherJson.t) (geoAnswer : reply GeoJson.t) : Eff unit :=
  setLoading true ;;
  try_catch_finally
    (weatherResponse <- fetch (WeatherRequest lat lon) weatherAnswer ;;
     (if negb (ok weatherResponse)
      then throw (ErrorThrown "날씨 데이터를 가져올 수 없습니다")
      else ret tt) ;;
     weatherData <- json weatherResponse ;;
     geoResponse <- fetch (ReverseRequest lat lon) geoAnswer ;;
     geoData <- json geoResponse ;;
     geoData <- dereference geoData ;;
     let addr := match GeoJson.address geoData with
                 | Some a => a
                 | None => Address.empty
                 end in
     weatherData <- dereference weatherData ;;
     let weather := weather weatherData addr in
     let newLocation := newLocation lat lon weatherData addr in
     setSelectedLocation newLocation ;;
     setRecentLocations (recentLocationsUpdater lat lon newLocation) ;;
     toast success (WeatherData.location weather ++ "의 날씨 정보를 가져왔습니다"))
    (fun e =>
       console_error "Weather fetch error:" e ;;
       toast error "날씨 정보를 가져오는데 실패했습니다")
    (setLoading false).

(** ** [searchCity] and [getCurrentLocation] *)

Section Entry_points.

(** [parseFloat], left abstract: nothing below depends on how a decimal
    string is rounded to a double. *)
Variable parseFloat : string -> JS.number.

Definition searchCity (searchAnswer : reply (list SearchHit.t))
    (weatherAnswer : reply WeatherJson.t) (geoAnswer : reply GeoJson.t) : Eff unit :=
  searchQuery <- read searchQuery ;;
  if negb (truthy (trim searchQuery)) then ret tt
  else
    setLoading true ;;
    try_catch_finally
      ((if well_formed searchQuery then ret tt else throw URIError) ;;
       response <- fetch (SearchRequest searchQuery) searchAnswer ;;
       data <- json response ;;
       data <- dereference data ;;
       match data with
       | [] => toast error "도시를 찾을 수 없습니다"
       | hit :: _ =>
           fetchWeather (parseFloat (SearchHit.lat hit)) (parseFloat (SearchHit.lon hit))
                        weatherAnswer geoAnswer
       end)
      (fun e =>
         console_error "City search error:" e ;;
         toast error "도시 검색에 실패했습니다")
      (setLoading false).

(** [getCurrentLocation] asks the platform for the position and returns;
    [geolocation] tells whether [navigator.geolocation] is there. *)
Definition getCurrentLocation (geolocation : bool) : Eff unit :=
  if negb geolocation then toast error "위치 서비스를 사용할 수 없습니다"
  else
    setLoading true ;;
    toast info "위치 정보를 가져오는 중..." ;;
    emit (GetCurrentPosition true 10000 0).

(** The success callback handed to [getCurrentPosition]. *)
Definition getCurrentLocation_success (latitude longitude : JS.number)
    (weatherAnswer : reply WeatherJson.t) (geoAnswer : reply GeoJson.t) : Eff unit :=
  fetchWeather latitude longitude weatherAnswer geoAnswer.

(** The error callback handed to [getCurrentPosition]. *)
Definition getCurrentLocation_error (code : Z) : Eff unit :=
  setLoading false ;;
  if (code =? 1)%Z then
    toast error "위치 권한이 거부되었습니다. 브라우저 설정에서 위치 권한을 허용해주세요."
  else if (code =? 2)%Z then
    toast error "위치 정보를 사용할 수 없습니다."
  else if (code =? 3)%Z then
    toast error "위치 정��� 요청 시간이 초과되었습니다."
  else
    toast error "현재 위치를 가져올 수 없습니다. 지도를 클릭하거나 도시명을 검색해주세요.".

(** *** The component as a whole *)

Definition initial_location : LocationData.t :=
  {| LocationData.name := "서울";
     LocationData.lat := JS.Finite (375665 # 10000);
     LocationData.lon := JS.Finite (126978 # 1000);
     LocationData.weather := None;
     LocationData.forecast := None |}.

Definition initial_state : UiState :=
  {| selectedLocation := initial_location;
     searchQuery := [];
     loading := false;
     recentLocations := [] |}.

Definition initial_world : World := {| ui := initial_state; trace := [] |}.

(** What can happen to the mounted component, with the answers the
    environment gives to the requests the handler makes. [Located] and
    [LocateFailed] are the position callbacks. *)
Inductive action : Type :=
| Mount (w : reply WeatherJson.t) (g : reply GeoJson.t)
| MapClick (lat lng : JS.number) (w : reply WeatherJson.t) (g : reply GeoJson.t)
| RecentClick (idx : nat) (w : reply WeatherJson.t) (g : reply GeoJson.t)
| TypeQuery (value : jsstring)
| Search (s : reply (list SearchHit.t)) (w : reply WeatherJson.t) (g : reply GeoJson.t)
| Locate (geolocation : bool)
| Located (latitude longitude : JS.number)
          (w : reply WeatherJson.t) (g : reply GeoJson.t)
| LocateFailed (code : Z).

Definition handle (a : action) : Eff unit :=
  match a with
  | Mount w g =>
      here <- read selectedLocation ;;
      fetchWeather (LocationData.lat here) (LocationData.lon here) w g
  | MapClick lat lng w g => fetchWeather lat lng w g
  | RecentClick idx w g =>
      recent <- read recentLocations ;;
      match nth_error recent idx with
      | Some loc => fetchWeather (LocationData.lat loc) (LocationData.lon loc) w g
      | None => ret tt
      end
  | TypeQuery value => setSearchQuery value
  | Search s w g => searchCity s w g
  | Locate geolocation => getCurrentLocation geolocation
  | Located latitude longitude w g => getCurrentLocation_success latitude longitude w g
  | LocateFailed code => getCurrentLocation_error code
  end.

Fixpoint run (actions : list action) (w : World) : World :=
  match actions with
  | [] => w
  | a :: rest => run rest (snd (handle a w))
  end.

End Entry_points.

(** ** Specification-side definitions *)

(** *** The band table of the weather codes *)

Inductive band : Type :=
| Exactly (code : Z)
| UpTo (bound : Z).

Definition in_band (b : band) (code : Z) : bool :=
  match b with
  | Exactly c => (code =? c)%Z
  | UpTo c => (code <=? c)%Z
  end.

Definition band_table : list (band * string) :=
  [ (Exactly 0, label_clear);
    (UpTo 3, label_partly_cloudy);
    (UpTo 48, label_fog);
    (UpTo 67, label_rain);
    (UpTo 77, label_snow);
    (UpTo 82, label_showers);
    (UpTo 86, label_snow) ].

Definition band_otherwise : string := label_thunderstorm.

(** The first band, from the top of the table, that the code falls in. *)
Fixpoint first_band (table : list (band * string)) (code : Z) : string :=
  match table with
  | [] => band_otherwise
  | (b, label) :: rest => if in_band b code then label else first_band rest code
  end.

(** The labels of the eight rows of the table. *)
Definition band_labels : list string := map snd band_table ++ [band_otherwise].

(** *** Coordinates of history entries *)

(** Two entries have the same coordinates when [===] says so on both. *)
Definition same_coordinates (a b : LocationData.t) : bool :=
  JS.strict_eq (LocationData.lat a) (LocationData.lat b)
  && JS.strict_eq (LocationData.lon a) (LocationData.lon b).

Fixpoint distinct_coordinates (history : list LocationData.t) : bool :=
  match history with
  | [] => true
  | a :: rest =>
      forallb (fun b => negb (same_coordinates a b)) rest && distinct_coordinates rest
  end.

Definition history_ok (history : list LocationData.t) : Prop :=
  (List.length history <= 5)%nat /\ distinct_coordinates history = true.

(** [record history location]: the updater as [fetchWeather] applies it,
    with the coordinates of the entry it inserts. *)
Definition record (history : list LocationData.t) (location : LocationData.t)
  : list LocationData.t :=
  recentLocationsUpdater (LocationData.lat location) (LocationData.lon location)
                         location history.

(** *** Rounding *)

(** [r] is [x] rounded to the nearest whole number: for a finite [x] an
    integer that no other integer beats; NaN and the infinities stay. *)
Definition nearest_whole (x r : JS.number) : Prop :=
  match x with
  | JS.Finite q =>
      exists n : Z, r = JS.of_Z n
                    /\ forall m : Z, Qabs (q - inject_Z n) <= Qabs (q - inject_Z m)
  | _ => r = x
  end.

(** *** Failing requests *)

(** Non-success status or network error. *)
Definition weather_request_failed (answer : reply WeatherJson.t) : Prop :=
  match answer with
  | NetworkError => True
  | Responded r => ok r = false
  end.

(** The weather request succeeded and delivered [weatherData]. *)
Definition weather_request_gave (answer : reply WeatherJson.t)
    (weatherData : WeatherJson.t) : Prop :=
  match answer with
  | NetworkError => False
  | Responded r => ok r = true /\ body r = Some (Shaped weatherData)
  end.



(** The reverse-geocode request delivered [geoData] (whatever the status). *)
Definition geo_request_gave (answer : reply GeoJson.t) (geoData : GeoJson.t) : Prop :=
  match answer with
  | NetworkError => False
  | Responded r => body r = Some (Shaped geoData)
  end.

(** [geoData.address || {}] *)
Definition address_of (geoData : GeoJson.t) : Address.t :=
  match GeoJson.address geoData with
  | Some a => a
  | None => Address.empty
  end.

(** *** Display name by priority *)

(** A field is present when it holds a non-empty string. *)
Definition present (field : option string) : option string :=
  match field with
  | Some s => if (s =? "")%string then None else Some s
  | None => None
  end.

Fixpoint present_fields (order : list (Address.t -> option string)) (addr : Address.t)
  : list string :=
  match order with
  | [] => []
  | field :: rest =>
      match present (field addr) with
      | Some s => s :: present_fields rest addr
      | None => present_fields rest addr
      end
  end.

(** Up to the two most specific present fields, joined; the placeholder
    when none is present. *)
Definition display_name_by (order : list (Address.t -> option string)) (addr : Address.t)
  : string :=
  match present_fields order addr with
  | [] => unknown_location
  | [a] => a
  | a :: b :: _ => a ++ ", " ++ b
  end.

(** The order as the specification lists it. *)
Definition listed_priority : list (Address.t -> option string) :=
  [ Address.neighbourhood; Address.suburb; Address.village; Address.hamlet;
    Address.district; Address.borough;
    Address.city; Address.town; Address.county ].

(** The order with [city_district] at the head of the district level. *)
Definition full_priority : list (Address.t -> option string) :=
  [ Address.neighbourhood; Address.suburb; Address.village; Address.hamlet;
    Address.city_district; Address.district; Address.borough;
    Address.city; Address.town; Address.county ].

(** *** The two ways a call of [fetchWeather] ends *)

(** The world after a lookup that went through. *)
Definition after_success (lat lon : JS.number) (weatherData : WeatherJson.t)
    (geoData : GeoJson.t) (w : World) : World :=
  let l := newLocation lat lon weatherData (address_of geoData) in
  {| ui := {| selectedLocation := l;
              searchQuery := searchQuery (ui w);
              loading := false;
              recentLocations := record (recentLocations (ui w)) l |};
     trace := trace w ++ [Fetch (WeatherRequest lat lon);
                          Fetch (ReverseRequest lat lon);
                          Toast success (LocationData.name l ++ "의 날씨 정보를 가져왔습니다")] |}.

(** The world after a lookup that was given up after [requests]. *)
Definition after_failure (requests : list event) (e : exn) (w : World) : World :=
  {| ui := {| selectedLocation := selectedLocation (ui w);
              searchQuery := searchQuery (ui w);
              loading := false;
              recentLocations := recentLocations (ui w) |};
     trace := trace w ++ requests
                ++ [ConsoleError "Weather fetch error:" e;
                    Toast error "날씨 정보를 가져오는데 실패했습니다"] |}.

(** *** Observations on runs *)

(** Nothing touched the selected location or the list. *)
Definition untouched (w w' : World) : Prop :=
  selectedLocation (ui w') = selectedLocation (ui w)
  /\ recentLocations (ui w') = recentLocations (ui w).

(** One entry was selected and recorded. *)
Definition selected_and_recorded (w w' : World) : Prop :=
  recentLocations (ui w')
  = record (recentLocations (ui w)) (selectedLocation (ui w')).

(** The answer the environment has ready for the weather request of an
    action, if the action can make one. *)
Definition weather_answer_of (a : action) : option (reply WeatherJson.t) :=
  match a with
  | Mount w _ | MapClick _ _ w _ | RecentClick _ w _ | Search _ w _ | Located _ _ w _ =>
      Some w
  | TypeQuery _ | Locate _ | LocateFailed _ => None
  end.

(** The selected location is the first of the recent ones. *)
Definition selected_heads_history (s : UiState) : Prop :=
  hd_error (recentLocations s) = Some (selectedLocation s).

(** *** Sample documents *)

Module Sample.

Definition num (q : Q) : JS.value := JS.Num (JS.Finite q).

(** A seven-day weather document. *)
Definition weatherData : WeatherJson.t :=
  {| WeatherJson.current :=
       {| Current.temperature_2m := num (184 # 10);
          Current.relative_humidity_2m := num (56 # 1);
          Current.apparent_temperature := num (-5 # 2);
          Current.weather_code := num (1 # 1);
          Current.wind_speed_10m := num (75 # 10);
          Current.surface_pressure := num (10132 # 10) |};
     WeatherJson.daily :=
       {| Daily.time := ["2024-05-01"; "2024-05-02"; "2024-05-03"; "2024-05-04";
                         "2024-05-05"; "2024-05-06"; "2024-05-07"];
          Daily.weather_code := [num (0 # 1); num (65 # 1); num (95 # 1); num (71 # 1);
                                 num (80 # 1); num (3 # 1); num (45 # 1)];
          Daily.temperature_2m_max := [num (215 # 10); num (193 # 10); num (17 # 1);
                                       num (225 # 10); num (24 # 1); num (20 # 1);
                                       num (19 # 1)];
          Daily.temperature_2m_min := [num (114 # 10); num (98 # 10); num (-3 # 2);
                                       num (12 # 1); num (13 # 1); num (11 # 1);
                                       num (10 # 1)];
          Daily.sunrise := ["2024-05-01T05:35"; "2024-05-02T05:34"];
          Daily.sunset := ["2024-05-01T19:23"; "2024-05-02T19:24"] |} |}.

(** A three-day weather document. *)
Definition shortWeatherData : WeatherJson.t :=
  {| WeatherJson.current := WeatherJson.current weatherData;
     WeatherJson.daily :=
       {| Daily.time := ["2024-05-01"; "2024-05-02"; "2024-05-03"];
          Daily.weather_code := [num (0 # 1); num (65 # 1); num (95 # 1)];
          Daily.temperature_2m_max := [num (215 # 10); num (193 # 10); num (17 # 1)];
          Daily.temperature_2m_min := [num (114 # 10); num (98 # 10); num (-3 # 2)];
          Daily.sunrise := ["2024-05-01T05:35"];
          Daily.sunset := ["2024-05-01T19:23"] |} |}.

Definition weather_ok : reply WeatherJson.t :=
  Responded {| ok := true; body := Some (Shaped weatherData) |}.

Definition weather_unavailable : reply WeatherJson.t :=
  Responded {| ok := false; body := None |}.

Definition seoul_address : Address.t :=
  {| Address.neighbourhood := Some "명동";
     Address.suburb := None;
     Address.village := None;
     Address.hamlet := None;
     Address.city_district := None;
     Address.district := None;
     Address.borough := Some "중구";
     Address.city := Some "서울";
     Address.town := None;
     Address.county := None;
     Address.country := Some "대한민국" |}.

(** An address whose only locality keys are [city_district] and [city]. *)
Definition district_address : Address.t :=
  {| Address.neighbourhood := None;
     Address.suburb := None;
     Address.village := None;
     Address.hamlet := None;
     Address.city_district := Some "중구";
     Address.district := None;
     Address.borough := None;
     Address.city := Some "서울";
     Address.town := None;
     Address.county := None;
     Address.country := Some "대한민국" |}.

Definition geo_ok : reply GeoJson.t :=
  Responded {| ok := true;
               body := Some (Shaped {| GeoJson.address := Some seoul_address |}) |}.

(** The document of a point that has no address: no [address] key. *)
Definition geo_no_address : reply GeoJson.t :=
  Responded {| ok := true; body := Some (Shaped {| GeoJson.address := None |}) |}.


Definition coordinate (n : Z) : JS.number := JS.Finite (n # 10).

Definition parseFloat (s : string) : JS.number :=
  if (s =? "37.5665")%string then JS.Finite (375665 # 10000)
  else if (s =? "126.9780")%string then JS.Finite (126978 # 1000)
  else JS.NaN.

(** Mount, then seven map clicks, two of them on a point clicked before. *)
Definition busy_session : list action :=
  [ Mount weather_ok geo_ok;
    MapClick (coordinate 1) (coordinate 1) weather_ok geo_ok;
    MapClick (coordinate 2) (coordinate 2) weather_ok geo_no_address;
    MapClick (coordinate 3) (coordinate 3) weather_ok geo_ok;
    MapClick (coordinate 1) (coordinate 1) weather_ok geo_ok;
    MapClick (coordinate 4) (coordinate 4) weather_unavailable geo_ok;
    MapClick (coordinate 5) (coordinate 5) weather_ok geo_ok;
    MapClick (coordinate 6) (coordinate 6) weather_ok NetworkError;
    MapClick (coordinate 7) (coordinate 7) weather_ok geo_ok;
    MapClick (coordinate 3) (coordinate 3) weather_ok geo_ok ].

End Sample.

(** The zero or one element of an option. *)
Definition option_list {A : Type} (o : option A) : list A :=
  match o with
  | Some a => [a]
  | None => []
  end.

(** ** The icon of a condition *)

Inductive lucide_icon : Type := CloudRain | CloudSnow | CloudFog | Cloud | Sun.

(** [s.includes(needle)]. On the UTF-8 bytes of well-formed strings a
    match is a match of whole characters, as it is on their code units. *)
Fixpoint includes (s needle : string) : bool :=
  String.prefix needle s
  || match s with
     | EmptyString => false
     | String _ rest => includes rest needle
     end.

Section Icons.

(** [String.prototype.toLowerCase], left abstract. *)
Variable toLowerCase : string -> string.

Definition getWeatherIcon (condition : string) : lucide_icon :=
  let lower := toLowerCase condition in
  if includes lower "rain" || includes lower "drizzle"
     || includes lower "비" || includes lower "소나기" then CloudRain
  else if includes lower "snow" || includes lower "눈" then CloudSnow
  else if includes lower "fog" || includes lower "mist" || includes lower "안개" then CloudFog
  else if includes lower "cloud" || includes lower "overcast" || includes lower "구름" then Cloud
  else if includes lower "clear" || includes lower "sunny" || includes lower "맑음" then Sun
  else Cloud.

End Icons.

(** ** More specification-side definitions *)

(** *** How a lookup ends, read off the two answers *)

Inductive lookup_outcome : Type :=
| Resolved (weatherData : WeatherJson.t) (geoData : GeoJson.t)
| GivenUp (requests : list event) (e : exn).

Definition lookup_outcome_of (lat lon : JS.number)
    (weatherAnswer : reply WeatherJson.t) (geoAnswer : reply GeoJson.t) : lookup_outcome :=
  let asked_weather := [Fetch (WeatherRequest lat lon)] in
  let asked_both := [Fetch (WeatherRequest lat lon); Fetch (ReverseRequest lat lon)] in
  match weatherAnswer with
  | NetworkError => GivenUp asked_weather FetchFailed
  | Responded r =>
      if ok r then
        match body r with
        | None => GivenUp asked_weather BodyNotJson
        | Some weatherData =>
            match geoAnswer with
            | NetworkError => GivenUp asked_both FetchFailed
            | Responded g =>
                match body g, weatherData with
                | None, _ => GivenUp asked_both BodyNotJson
                | Some (Shaped geoData), Shaped weatherData => Resolved weatherData geoData
                | Some _, _ => GivenUp asked_both TypeError
                end
            end
        end
      else GivenUp asked_weather (ErrorThrown "날씨 데이터를 가져올 수 없습니다")
  end.

Definition settled (lat lon : JS.number)
    (weatherAnswer : reply WeatherJson.t) (geoAnswer : reply GeoJson.t) (w : World) : World :=
  match lookup_outcome_of lat lon weatherAnswer geoAnswer with
  | Resolved weatherData geoData => after_success lat lon weatherData geoData w
  | GivenUp requests e => after_failure requests e w
  end.

(** *** Parts of a trace *)

Definition requests_in (events : list event) : list request :=
  flat_map (fun e => match e with Fetch r => [r] | _ => [] end) events.

Definition toasts_in (events : list event) : list (toast_kind * string) :=
  flat_map (fun e => match e with Toast k msg => [(k, msg)] | _ => [] end) events.

(** The state with the loading flag down, all else as it is. *)
Definition idle (s : UiState) : UiState :=
  {| selectedLocation := selectedLocation s;
     searchQuery := searchQuery s;
     loading := false;
     recentLocations := recentLocations s |}.

(** *** Where an action takes its coordinates from *)


(** *** Entries a lookup has resolved *)

Definition resolved (l : LocationData.t) : Prop :=
  exists (record : WeatherData.t) (days : list ForecastDay.t),
    LocationData.weather l = Some record
    /\ LocationData.forecast l = Some days
    /\ LocationData.name l = WeatherData.location record
    /\ LocationData.name l <> ""
    /\ (List.length days <= 5)%nat
    /\ In (WeatherData.condition record) band_labels
    /\ Forall (fun day => In (ForecastDay.condition day) band_labels) days.

(** *** Characters of a string *)

Fixpoint mentions (c : ascii) (s : string) : bool :=
  match s with
  | EmptyString => false
  | String d rest => Ascii.eqb d c || mentions c rest
  end.

(** *** How the other handlers end *)

Definition with_events (events : list event) (w : World) : World :=
  {| ui := ui w; trace := trace w ++ events |}.

(** The world after a search that was given up after [requests]. *)
Definition search_failed (requests : list event) (e : exn) (w : World) : World :=
  {| ui := idle (ui w);
     trace := trace w ++ requests
                ++ [ConsoleError "City search error:" e;
                    Toast error "도시 검색에 실패했습니다"] |}.

(** The world after a search that found no place. *)
Definition search_found_nothing (w : World) : World :=
  {| ui := idle (ui w);
     trace := trace w ++ [Fetch (SearchRequest (searchQuery (ui w)));
                          Toast error "도시를 찾을 수 없습니다"] |}.

Definition searchCity_settled (parseFloat : string -> JS.number)
    (searchAnswer : reply (list SearchHit.t)) (weatherAnswer : reply WeatherJson.t)
    (geoAnswer : reply GeoJson.t) (w : World) : World :=
  let q := searchQuery (ui w) in
  if negb (truthy (trim q)) then w
  else if negb (well_formed q) then search_failed [] URIError w
  else
    match searchAnswer with
    | NetworkError => search_failed [Fetch (SearchRequest q)] FetchFailed w
    | Responded r =>
        match body r with
        | None => search_failed [Fetch (SearchRequest q)] BodyNotJson w
        | Some Misshaped => search_failed [Fetch (SearchRequest q)] TypeError w
        | Some (Shaped []) => search_found_nothing w
        | Some (Shaped (hit :: _)) =>
            settled (parseFloat (SearchHit.lat hit)) (parseFloat (SearchHit.lon hit))
                    weatherAnswer geoAnswer
                    (with_events [Fetch (SearchRequest q)] w)
        end
    end.

Definition position_error_message (code : Z) : string :=
  if (code =? 1)%Z then
    "위치 권한이 거부되었습니다. 브라우저 설정에서 위치 권한을 허용해주세요."
  else if (code =? 2)%Z then "위치 정보를 사용할 수 없습니다."
  else if (code =? 3)%Z then "위치 정��� 요청 시간이 초과되었습니다."
  else "현재 위치를 가져올 수 없습니다. 지도를 클릭하거나 도시명을 검색해주세요.".

Definition locating : event := Toast info "위치 정보를 가져오는 중...".

(** The world after the error callback. *)
Definition position_failed (code : Z) (w : World) : World :=
  {| ui := idle (ui w);
     trace := trace w ++ [Toast error (position_error_message code)] |}.

(** The world when [getCurrentLocation] has returned. *)
Definition getCurrentLocation_settled (geolocation : bool) (w : World) : World :=
  if geolocation then
    {| ui := {| selectedLocation := selectedLocation (ui w);
                searchQuery := searchQuery (ui w);
                loading := true;
                recentLocations := recentLocations (ui w) |};
       trace := trace w ++ [locating; GetCurrentPosition true 10000 0] |}
  else with_events [Toast error "위치 서비스를 사용할 수 없습니다"] w.

Definition handle_settled (parseFloat : string -> JS.number) (a : action) (w : World)
  : World :=
  match a with
  | Mount wa ga =>
      settled (LocationData.lat (selectedLocation (ui w)))
              (LocationData.lon (selectedLocation (ui w))) wa ga w
  | MapClick lat lng wa ga => settled lat lng wa ga w
  | RecentClick idx wa ga =>
      match nth_error (recentLocations (ui w)) idx with
      | Some loc => settled (LocationData.lat loc) (LocationData.lon loc) wa ga w
      | None => w
      end
  | TypeQuery value =>
      {| ui := {| selectedLocation := selectedLocation (ui w);
                  searchQuery := value;
                  loading := loading (ui w);
                  recentLocations := recentLocations (ui w) |};
         trace := trace w |}
  | Search sa wa ga => searchCity_settled parseFloat sa wa ga w
  | Locate geolocation => getCurrentLocation_settled geolocation w
  | Located latitude longitude wa ga => settled latitude longitude wa ga w
  | LocateFailed code => position_failed code w
  end.

(** Both services delivered a document. *)
Definition both_answered (weatherAnswer : reply WeatherJson.t) (geoAnswer : reply GeoJson.t)
  : Prop :=
  exists weatherData geoData,
    weather_request_gave weatherAnswer weatherData /\ geo_request_gave geoAnswer geoData.

(** *** States between handlers *)

(** Nothing has been looked up yet, or what is selected was looked up. *)
Definition selection_resolved (s : UiState) : Prop :=
  Forall resolved (recentLocations s)
  /\ ((selectedLocation s = initial_location /\ recentLocations s = [])
      \/ resolved (selectedLocation s)).

(** *** A lower-casing for samples *)

Definition lower_ascii (c : ascii) : ascii :=
  let n := nat_of_ascii c in
  if ((65 <=? n) && (n <=? 90))%nat then ascii_of_nat (n + 32) else c.

(** [toLowerCase] on text whose only cased characters are ASCII letters;
    the bytes of other characters stay. *)
Fixpoint ascii_toLowerCase (s : string) : string :=
  match s with
  | EmptyString => EmptyString
  | String c rest => String (lower_ascii c) (ascii_toLowerCase rest)
  end.

(** The icon by integer weather code, band by band. *)
Definition icon_of_code (code : Z) : lucide_icon :=
  if (code =? 0)%Z then Sun
  else if (code <=? 3)%Z then Cloud
  else if (code <=? 48)%Z then CloudFog
  else if (code <=? 67)%Z then CloudRain
  else if (code <=? 77)%Z then CloudSnow
  else if (code <=? 82)%Z then CloudRain
  else if (code <=? 86)%Z then CloudSnow
  else Cloud.

(** ** The weather panel *)

(** Which branch of the panel's conditional is rendered; for the card,
    whether the sunrise/sunset block and the forecast card are in it. *)
Inductive info_panel : Type :=
| Spinner
| Card (sun_times forecast_card : bool)
| Blank.

(** A string in a condition: [undefined] and the empty string are falsy. *)
Definition truthy_string (s : option string) : bool :=
  match s with
  | Some (String _ _) => true
  | _ => false
  end.

Definition infoPanel (s : UiState) : info_panel :=
  match LocationData.weather (selectedLocation s) with
  | None => if loading s then Spinner else Blank
  | Some w =>
      Card (truthy_string (WeatherData.sunrise w) && truthy_string (WeatherData.sunset w))
           match LocationData.forecast (selectedLocation s) with
           | Some (_ :: _) => true
           | _ => false
           end
  end.

(** The weather response has a success status and a body that parses,
    of whatever shape. *)
Definition weather_request_parsed (answer : reply WeatherJson.t) : Prop :=
  match answer with
  | NetworkError => False
  | Responded r => ok r = true /\ body r <> None
  end.

(** The state with the loading flag as given, all else as it is. *)
Definition with_loading (b : bool) (s : UiState) : UiState :=
  {| selectedLocation := selectedLocation s;
     searchQuery := searchQuery s;
     loading := b;
     recentLocations := recentLocations s |}.

(** ** Properties *)

(** *** Numbers *)

Lemma Qeq_bool_inject_Z (a b : Z) : Qeq_bool (inject_Z a) (inject_Z b) = (a =? b)%Z.
Proof.
  unfold Qeq_bool, inject_Z; simpl. now rewrite !Z.mul_1_r.
Qed.

Lemma Qle_bool_inject_Z (a b : Z) : Qle_bool (inject_Z a) (inject_Z b) = (a <=? b)%Z.
Proof.
  unfold Qle_bool, inject_Z; simpl. now rewrite !Z.mul_1_r.
Qed.

Lemma strict_eq_of_Z (a b : Z) : JS.strict_eq (JS.of_Z a) (JS.of_Z b) = (a =? b)%Z.
Proof. apply Qeq_bool_inject_Z. Qed.

Lemma le_of_Z (a b : Z) : JS.le (JS.of_Z a) (JS.of_Z b) = (a <=? b)%Z.
Proof. apply Qle_bool_inject_Z. Qed.

Lemma strict_eq_sym (x y : JS.number) : JS.strict_eq x y = JS.strict_eq y x.
Proof.
  destruct x as [|a|p], y as [|b|q]; simpl; try reflexivity.
  - now destruct a, b.
  - destruct (Qeq_bool p q) eqn:E, (Qeq_bool q p) eqn:E'; try reflexivity.
    + apply Qeq_bool_eq in E. symmetry in E. apply Qeq_eq_bool in E. congruence.
    + apply Qeq_bool_eq in E'. symmetry in E'. apply Qeq_eq_bool in E'. congruence.
Qed.

Lemma strict_eq_refl_of_eq (x y : JS.number) :
  JS.strict_eq x y = true -> JS.strict_eq y y = true.
Proof.
  destruct x as [|a|p], y as [|b|q]; simpl; try discriminate; intros _.
  - now destruct b.
  - apply Qeq_eq_bool. reflexivity.
Qed.

(** *** The code as a function of an integer weather code *)

Lemma weatherCodeToCondition_of_Z (code : Z) :
  weatherCodeToCondition (JS.Num (JS.of_Z code)) = first_band band_table code.
Proof.
  unfold weatherCodeToCondition, JS.value_strict_eq, JS.value_le, JS.ToNumber.
  rewrite strict_eq_of_Z, !le_of_Z. reflexivity.
Qed.

(** The eight rows carry seven different labels: snow stands in two. *)
Lemma band_labels_distinct :
  List.length (nodup string_dec band_labels) = 7%nat.
Proof. reflexivity. Qed.

(** C1. For an integer weather code between 0 and 99 the label computed by
    [weatherCodeToCondition] is the one the band table gives, reading the
    table from the top and stopping at the first band the code falls in;
    it is one of the eight row labels; and band by band: 0 is clear, 1-3
    partly cloudy, 4-48 fog, 49-67 rain, 68-77 snow, 78-82 showers, 83-86
    snow, anything above thunderstorm. *)
Theorem weatherCodeToCondition_band_table (code : Z) :
  (0 <= code <= 99)%Z ->
  let label := weatherCodeToCondition (JS.Num (JS.of_Z code)) in
  label = first_band band_table code
  /\ In label band_labels
  /\ List.length band_labels = 8%nat
  /\ (code = 0 -> label = label_clear)%Z
  /\ (1 <= code <= 3 -> label = label_partly_cloudy)%Z
  /\ (4 <= code <= 48 -> label = label_fog)%Z
  /\ (49 <= code <= 67 -> label = label_rain)%Z
  /\ (68 <= code <= 77 -> label = label_snow)%Z
  /\ (78 <= code <= 82 -> label = label_showers)%Z
  /\ (83 <= code <= 86 -> label = label_snow)%Z
  /\ (87 <= code -> label = label_thunderstorm)%Z.
Proof.
  intros Hrange label. subst label.
  rewrite weatherCodeToCondition_of_Z.
  unfold band_table, first_band, in_band, band_otherwise.
  split; [reflexivity|].
  destruct (Z.eqb_spec code 0) as [E0|N0].
  { repeat split; try (intros; lia). unfold band_labels; simpl; tauto. }
  destruct (Z.leb_spec code 3).
  { repeat split; try (intros; lia). unfold band_labels; simpl; tauto. }
  destruct (Z.leb_spec code 48).
  { repeat split; try (intros; lia). unfold band_labels; simpl; tauto. }
  destruct (Z.leb_spec code 67).
  { repeat split; try (intros; lia). unfold band_labels; simpl; tauto. }
  destruct (Z.leb_spec code 77).
  { repeat split; try (intros; lia). unfold band_labels; simpl; tauto. }
  destruct (Z.leb_spec code 82).
  { repeat split; try (intros; lia). unfold band_labels; simpl; tauto. }
  destruct (Z.leb_spec code 86).
  { repeat split; try (intros; lia). unfold band_labels; simpl; tauto. }
  repeat split; try (intros; lia). unfold band_labels; simpl; tauto.
Qed.

Lemma weatherCodeToCondition_band_table_witness :
  (0 <= 65 <= 99)%Z
  /\ weatherCodeToCondition (JS.Num (JS.of_Z 65)) = label_rain
  /\ weatherCodeToCondition (JS.Num (JS.of_Z 0)) = label_clear
  /\ weatherCodeToCondition (JS.Num (JS.of_Z 95)) = label_thunderstorm.
Proof.
  split; [lia|].
  split; [apply (weatherCodeToCondition_band_table 65); lia|].
  split; [apply (weatherCodeToCondition_band_table 0); lia|].
  apply (weatherCodeToCondition_band_table 95); lia.
Defined.

(** *** The recent-locations list *)

Lemma same_coordinates_sym (a b : LocationData.t) :
  same_coordinates a b = same_coordinates b a.
Proof.
  unfold same_coordinates.
  now rewrite (strict_eq_sym (LocationData.lat a)), (strict_eq_sym (LocationData.lon a)).
Qed.

Lemma same_coordinates_refl_of_same (a b : LocationData.t) :
  same_coordinates a b = true -> same_coordinates b b = true.
Proof.
  unfold same_coordinates. intros H.
  apply andb_true_iff in H as [Hlat Hlon].
  now rewrite (strict_eq_refl_of_eq _ _ Hlat), (strict_eq_refl_of_eq _ _ Hlon).
Qed.

Lemma record_unfold (history : list LocationData.t) (location : LocationData.t) :
  record history location
  = firstn 5 (location :: filter (fun e => negb (same_coordinates e location)) history).
Proof. reflexivity. Qed.

Lemma updater_is_record (lat lon : JS.number) (weatherData : WeatherJson.t)
    (addr : Address.t) (prev : list LocationData.t) :
  recentLocationsUpdater lat lon (newLocation lat lon weatherData addr) prev
  = record prev (newLocation lat lon weatherData addr).
Proof. reflexivity. Qed.

Lemma forallb_filter {A : Type} (p q : A -> bool) (l : list A) :
  forallb p l = true -> forallb p (filter q l) = true.
Proof.
  induction l as [|x l IH]; simpl; [reflexivity|].
  intros H. apply andb_true_iff in H as [Hx Hl].
  destruct (q x); simpl; [rewrite Hx|]; auto.
Qed.

Lemma forallb_firstn {A : Type} (p : A -> bool) (n : nat) (l : list A) :
  forallb p l = true -> forallb p (firstn n l) = true.
Proof.
  revert l. induction n as [|n IH]; intros [|x l]; simpl; try reflexivity.
  intros H. apply andb_true_iff in H as [Hx Hl]. rewrite Hx. simpl. auto.
Qed.

Lemma forallb_filter_implied {A : Type} (p q : A -> bool) (l : list A) :
  (forall x, q x = true -> p x = true) -> forallb p (filter q l) = true.
Proof.
  intros Himp. induction l as [|x l IH]; simpl; [reflexivity|].
  destruct (q x) eqn:E; simpl; [rewrite (Himp x E)|]; auto.
Qed.

Lemma In_firstn {A : Type} (x : A) (n : nat) (l : list A) :
  In x (firstn n l) -> In x l.
Proof.
  revert l. induction n as [|n IH]; intros [|y l]; simpl; try tauto.
  intros [H|H]; auto.
Qed.

Lemma filter_none {A : Type} (p : A -> bool) (l : list A) :
  (forall x, In x l -> p x = false) -> filter p l = [].
Proof.
  induction l as [|y l IH]; simpl; [reflexivity|].
  intros H. rewrite (H y (or_introl eq_refl)). auto.
Qed.

Lemma distinct_coordinates_filter (q : LocationData.t -> bool) (h : list LocationData.t) :
  distinct_coordinates h = true -> distinct_coordinates (filter q h) = true.
Proof.
  induction h as [|a h IH]; simpl; [reflexivity|].
  intros H. apply andb_true_iff in H as [Ha Hh].
  destruct (q a); simpl; auto.
  rewrite (forallb_filter _ q _ Ha). simpl. auto.
Qed.

Lemma distinct_coordinates_firstn (n : nat) (h : list LocationData.t) :
  distinct_coordinates h = true -> distinct_coordinates (firstn n h) = true.
Proof.
  revert h. induction n as [|n IH]; intros [|a h]; simpl; try reflexivity.
  intros H. apply andb_true_iff in H as [Ha Hh].
  rewrite (forallb_firstn _ n _ Ha). simpl. auto.
Qed.

Lemma record_history_ok (history : list LocationData.t) (location : LocationData.t) :
  history_ok history -> history_ok (record history location).
Proof.
  intros [_ Hdistinct]. rewrite record_unfold. split.
  - apply firstn_le_length.
  - apply distinct_coordinates_firstn.
    cbn [distinct_coordinates].
    apply andb_true_iff. split.
    + apply forallb_filter_implied.
      intros e He. now rewrite same_coordinates_sym.
    + now apply distinct_coordinates_filter.
Qed.

Lemma record_cons (history : list LocationData.t) (location : LocationData.t) :
  record history location
  = location :: firstn 4 (filter (fun e => negb (same_coordinates e location)) history).
Proof. reflexivity. Qed.

Lemma record_tail_differs (history : list LocationData.t) (location : LocationData.t) :
  Forall (fun e => same_coordinates e location = false)
         (firstn 4 (filter (fun e => negb (same_coordinates e location)) history)).
Proof.
  apply Forall_forall. intros e He.
  apply In_firstn, filter_In in He as [_ He].
  now apply negb_true_iff in He.
Qed.

(** C2. [record] puts the new entry first, keeps at most five entries,
    keeps behind it exactly the old entries whose coordinates differ from
    the new one's (in their order, as many as fit), so that no entry behind
    the head has the new coordinates; and recording a second entry with the
    same coordinates leaves that second entry first and as the only entry
    with those coordinates. *)
Theorem record_contract (history : list LocationData.t) (location : LocationData.t) :
  let h := record history location in
  hd_error h = Some location
  /\ (List.length h <= 5)%nat
  /\ tl h = firstn 4 (filter (fun e => negb (same_coordinates e location)) history)
  /\ Forall (fun e => same_coordinates e location = false) (tl h)
  /\ forall again : LocationData.t,
       same_coordinates location again = true ->
       hd_error (record h again) = Some again
       /\ filter (fun e => same_coordinates e again) (record h again) = [again].
Proof.
  cbv zeta.
  split; [reflexivity|].
  split; [rewrite record_unfold; apply firstn_le_length|].
  split; [reflexivity|].
  split; [rewrite record_cons; apply record_tail_differs|].
  intros again Hsame.
  assert (Hself : same_coordinates again again = true)
    by exact (same_coordinates_refl_of_same location again Hsame).
  generalize (record history location). intros h.
  rewrite record_cons. split; [reflexivity|].
  cbn [filter]. rewrite Hself. f_equal.
  apply filter_none. intros e He.
  pose proof (record_tail_differs h again) as Hall.
  rewrite Forall_forall in Hall. now apply Hall.
Qed.

Lemma record_contract_witness :
  let seoul := initial_location in
  let busan :=
    {| LocationData.name := "부산";
       LocationData.lat := JS.Finite (351796 # 10000);
       LocationData.lon := JS.Finite (1290756 # 10000);
       LocationData.weather := None;
       LocationData.forecast := None |} in
  let seoul_again :=
    {| LocationData.name := "중구, 서울";
       LocationData.lat := JS.Finite (75133 # 2000);
       LocationData.lon := JS.Finite (63489 # 500);
       LocationData.weather := None;
       LocationData.forecast := None |} in
  same_coordinates seoul seoul_again = true
  /\ filter (fun e => same_coordinates e seoul_again)
            (record (record [busan] seoul) seoul_again) = [seoul_again]
  /\ record (record [busan] seoul) seoul_again = [seoul_again; busan].
Proof.
  cbv zeta. split; [reflexivity|]. split; [|reflexivity].
  eapply (record_contract [_] initial_location). reflexivity.
Defined.

(** NaN is not [===] to itself: entries with NaN coordinates, which the
    coordinate type of the data model excludes, are not merged. *)
Example record_nan_twice :
  let nowhere :=
    {| LocationData.name := unknown_location;
       LocationData.lat := JS.NaN;
       LocationData.lon := JS.NaN;
       LocationData.weather := None;
       LocationData.forecast := None |} in
  same_coordinates nowhere nowhere = false
  /\ record (record [] nowhere) nowhere = [nowhere; nowhere]
  /\ history_ok (record (record [] nowhere) nowhere).
Proof.
  cbv zeta. split; [reflexivity|]. split; [reflexivity|].
  split; [simpl; lia|reflexivity].
Qed.

(** *** What one call of [fetchWeather] does *)

Ltac run_eff :=
  cbv [fetchWeather bind ret throw try_catch_finally fetch json dereference emit modify read
       toast console_error setLoading setSelectedLocation setRecentLocations
       setSearchQuery ui trace ok body selectedLocation searchQuery loading
       recentLocations negb].

Lemma fetchWeather_settles (lat lon : JS.number) (weatherAnswer : reply WeatherJson.t)
    (geoAnswer : reply GeoJson.t) (w : World) :
  fetchWeather lat lon weatherAnswer geoAnswer w
  = (Returned tt, settled lat lon weatherAnswer geoAnswer w).
Proof.
  destruct w as [s t]. unfold settled, lookup_outcome_of.
  destruct weatherAnswer as [|[[|] [[weatherData|]|]]];
    destruct geoAnswer as [|[gok [[geoData|]|]]];
    cbn [ok body]; unfold after_success, after_failure, address_of; run_eff;
    rewrite <- ?app_assoc; reflexivity.
Qed.

Lemma fetchWeather_success (lat lon : JS.number) (weatherAnswer : reply WeatherJson.t)
    (geoAnswer : reply GeoJson.t) (weatherData : WeatherJson.t) (geoData : GeoJson.t)
    (w : World) :
  weather_request_gave weatherAnswer weatherData ->
  geo_request_gave geoAnswer geoData ->
  fetchWeather lat lon weatherAnswer geoAnswer w
  = (Returned tt, after_success lat lon weatherData geoData w).
Proof.
  rewrite fetchWeather_settles. unfold settled, lookup_outcome_of.
  destruct weatherAnswer as [|[wok wbody]]; simpl; [tauto|].
  intros [-> ->].
  destruct geoAnswer as [|[gok gbody]]; simpl; [tauto|].
  intros ->. reflexivity.
Qed.

Lemma fetchWeather_weather_failure (lat lon : JS.number)
    (weatherAnswer : reply WeatherJson.t) (geoAnswer : reply GeoJson.t) (w : World) :
  weather_request_failed weatherAnswer ->
  exists e : exn,
    fetchWeather lat lon weatherAnswer geoAnswer w
    = (Returned tt, after_failure [Fetch (WeatherRequest lat lon)] e w).
Proof.
  rewrite fetchWeather_settles. unfold settled, lookup_outcome_of.
  destruct weatherAnswer as [|[wok wbody]]; simpl.
  - intros _. eexists. reflexivity.
  - intros ->. eexists. reflexivity.
Qed.


(** Every call ends in one of the two ways. *)
Lemma fetchWeather_cases (lat lon : JS.number) (weatherAnswer : reply WeatherJson.t)
    (geoAnswer : reply GeoJson.t) (w : World) :
  (exists weatherData geoData,
      weather_request_gave weatherAnswer weatherData
      /\ geo_request_gave geoAnswer geoData
      /\ fetchWeather lat lon weatherAnswer geoAnswer w
         = (Returned tt, after_success lat lon weatherData geoData w))
  \/ (exists requests e,
         fetchWeather lat lon weatherAnswer geoAnswer w
         = (Returned tt, after_failure requests e w)).
Proof.
  rewrite fetchWeather_settles. unfold settled, lookup_outcome_of.
  destruct weatherAnswer as [|[[|] [[weatherData|]|]]];
    destruct geoAnswer as [|[gok [[geoData|]|]]]; cbn [ok body];
    try (right; eexists; eexists; reflexivity).
  left. exists weatherData, geoData. cbn. auto.
Qed.

(** *** Every handler returns, and either leaves the selection alone or
    records what it selects *)

Lemma fetchWeather_failed_untouched (lat lon : JS.number)
    (weatherAnswer : reply WeatherJson.t) (geoAnswer : reply GeoJson.t) (w : World) :
  weather_request_failed weatherAnswer ->
  exists w' : World,
    fetchWeather lat lon weatherAnswer geoAnswer w = (Returned tt, w')
    /\ untouched w w'.
Proof.
  intros Hfail.
  destruct (fetchWeather_weather_failure lat lon weatherAnswer geoAnswer w Hfail)
    as [e E].
  rewrite E. eexists. split; [reflexivity|]. split; reflexivity.
Qed.

Ltac run_handler :=
  cbv [bind ret throw try_catch_finally fetch json dereference emit modify read
       toast console_error setLoading setSelectedLocation setRecentLocations
       setSearchQuery ui trace ok body selectedLocation searchQuery loading
       recentLocations negb].

Ltac leaves_untouched :=
  eexists; split; [reflexivity|]; left; split; reflexivity.

(** A handler that wraps one call of [fetchWeather] between state updates
    that touch neither the selection nor the list. *)
Lemma searchCity_summary (parseFloat : string -> JS.number)
    (searchAnswer : reply (list SearchHit.t)) (weatherAnswer : reply WeatherJson.t)
    (geoAnswer : reply GeoJson.t) (w : World) :
  exists w' : World,
    searchCity parseFloat searchAnswer weatherAnswer geoAnswer w = (Returned tt, w')
    /\ (untouched w w'
        \/ selected_and_recorded w w' /\ ~ weather_request_failed weatherAnswer).
Proof.
  destruct w as [[sel q ld rec] t]. unfold searchCity. run_handler.
  destruct (truthy (trim q)); run_handler; [|leaves_untouched].
  destruct (well_formed q); run_handler; [|leaves_untouched].
  destruct searchAnswer as [|[sok [[[|hit hits]|]|]]]; run_handler;
    try leaves_untouched.
  match goal with
  | |- context [fetchWeather ?a ?b ?wa ?ga ?w0] =>
      destruct (fetchWeather_cases a b wa ga w0)
        as [(wd & gd & Hw & _ & E)|(requests & e & E)]; rewrite E
  end.
  - eexists. split; [reflexivity|]. right. split; [reflexivity|].
    destruct weatherAnswer as [|r]; simpl in *; [tauto|].
    destruct Hw as [Hok _]. congruence.
  - leaves_untouched.
Qed.

Lemma fetchWeather_handler_summary (lat lon : JS.number)
    (weatherAnswer : reply WeatherJson.t) (geoAnswer : reply GeoJson.t) (w : World) :
  exists w' : World,
    fetchWeather lat lon weatherAnswer geoAnswer w = (Returned tt, w')
    /\ (untouched w w'
        \/ selected_and_recorded w w' /\ ~ weather_request_failed weatherAnswer).
Proof.
  destruct (fetchWeather_cases lat lon weatherAnswer geoAnswer w)
    as [(wd & gd & Hw & _ & E)|(requests & e & E)]; rewrite E.
  - eexists. split; [reflexivity|]. right. split; [reflexivity|].
    destruct weatherAnswer as [|r]; simpl in *; [tauto|].
    destruct Hw as [Hok _]. congruence.
  - leaves_untouched.
Qed.

Lemma handle_summary (parseFloat : string -> JS.number) (a : action) (w : World) :
  exists w' : World,
    handle parseFloat a w = (Returned tt, w')
    /\ (untouched w w'
        \/ selected_and_recorded w w'
           /\ exists answer, weather_answer_of a = Some answer
                             /\ ~ weather_request_failed answer).
Proof.
  destruct a as [wa ga|lat lng wa ga|idx wa ga|value|sa wa ga
                |geolocation|latitude longitude wa ga|code];
    cbn [handle weather_answer_of].
  - unfold bind, read.
    destruct (fetchWeather_handler_summary
                (LocationData.lat (selectedLocation (ui w)))
                (LocationData.lon (selectedLocation (ui w))) wa ga w)
      as (w' & E & [H|[H Hn]]); rewrite E; eexists; (split; [reflexivity|]); eauto.
  - destruct (fetchWeather_handler_summary lat lng wa ga w)
      as (w' & E & [H|[H Hn]]); rewrite E; eexists; (split; [reflexivity|]); eauto.
  - unfold bind, read.
    destruct (nth_error (recentLocations (ui w)) idx) as [loc|].
    + destruct (fetchWeather_handler_summary
                  (LocationData.lat loc) (LocationData.lon loc) wa ga w)
        as (w' & E & [H|[H Hn]]); rewrite E; eexists; (split; [reflexivity|]); eauto.
    + leaves_untouched.
  - destruct w as [[sel q ld rec] t]. leaves_untouched.
  - destruct (searchCity_summary parseFloat sa wa ga w)
      as (w' & E & [H|[H Hn]]); rewrite E; eexists; (split; [reflexivity|]); eauto.
  - destruct w as [[sel q ld rec] t]. unfold getCurrentLocation.
    destruct geolocation; run_handler; leaves_untouched.
  - unfold getCurrentLocation_success.
    destruct (fetchWeather_handler_summary latitude longitude wa ga w)
      as (w' & E & [H|[H Hn]]); rewrite E; eexists; (split; [reflexivity|]); eauto.
  - destruct w as [[sel q ld rec] t]. unfold getCurrentLocation_error.
    destruct (code =? 1)%Z; [|destruct (code =? 2)%Z; [|destruct (code =? 3)%Z]];
      run_handler; leaves_untouched.
Qed.

(** *** Invariants of the recent-locations list *)

Lemma handle_history_ok (parseFloat : string -> JS.number) (a : action) (w : World) :
  history_ok (recentLocations (ui w)) ->
  history_ok (recentLocations (ui (snd (handle parseFloat a w)))).
Proof.
  intros Hok.
  destruct (handle_summary parseFloat a w) as (w' & E & [[_ H]|[H _]]);
    rewrite E; cbn [snd].
  - now rewrite H.
  - rewrite H. now apply record_history_ok.
Qed.

Lemma run_history_ok (parseFloat : string -> JS.number) (actions : list action) :
  forall w : World,
    history_ok (recentLocations (ui w)) ->
    history_ok (recentLocations (ui (run parseFloat actions w))).
Proof.
  induction actions as [|a rest IH]; intros w Hok; cbn [run]; [exact Hok|].
  apply IH. now apply handle_history_ok.
Qed.

(** C3. The recent-locations list starts within the invariant (at most
    five entries, no two of them with the same latitude and the same
    longitude under [===]), one [record] keeps it, and so does every
    sequence of user actions, whatever the environment answers and whether
    or not coordinates repeat. *)
Theorem recent_history_invariant (parseFloat : string -> JS.number) :
  history_ok (recentLocations initial_state)
  /\ (forall history location,
         history_ok history -> history_ok (record history location))
  /\ (forall actions w,
         history_ok (recentLocations (ui w)) ->
         history_ok (recentLocations (ui (run parseFloat actions w))))
  /\ (forall actions,
         history_ok (recentLocations (ui (run parseFloat actions initial_world)))).
Proof.
  assert (Hinit : history_ok (recentLocations initial_state)).
  { split; [simpl; lia|reflexivity]. }
  split; [exact Hinit|].
  split; [exact record_history_ok|].
  split; [intros actions w; apply run_history_ok|].
  intros actions. now apply run_history_ok.
Qed.

Lemma recent_history_invariant_witness :
  let final := ui (run Sample.parseFloat Sample.busy_session initial_world) in
  history_ok (recentLocations final)
  /\ map LocationData.lat (recentLocations final)
     = map Sample.coordinate [3; 7; 5; 1; 2]%Z
  /\ history_ok (record (recentLocations final) initial_location).
Proof.
  cbv zeta.
  destruct (recent_history_invariant Sample.parseFloat) as (_ & Hrecord & _ & Hrun).
  split; [apply Hrun|]. split; [vm_compute; reflexivity|].
  apply Hrecord. split; [vm_compute; lia|vm_compute; reflexivity].
Defined.

Lemma record_head (history : list LocationData.t) (location : LocationData.t) :
  hd_error (record history location) = Some location.
Proof. reflexivity. Qed.

Lemma handle_selected_heads_history (parseFloat : string -> JS.number) (a : action)
    (w : World) :
  recentLocations (ui w) = [] \/ selected_heads_history (ui w) ->
  let w' := snd (handle parseFloat a w) in
  recentLocations (ui w') = [] \/ selected_heads_history (ui w').
Proof.
  intros Hinv. cbv zeta.
  destruct (handle_summary parseFloat a w) as (w' & E & [[Hsel Hrec]|[H _]]);
    rewrite E; cbn [snd]; unfold selected_heads_history in *.
  - rewrite Hsel, Hrec. exact Hinv.
  - right. rewrite H. apply record_head.
Qed.

(** C10. A lookup that goes through stores the new entry as the selected
    location and the selected location is then the first entry of the
    recent-locations list; along every run of the component the list is
    either still empty or headed by the selected location. *)
Theorem selected_location_heads_history (parseFloat : string -> JS.number) :
  (forall lat lon weatherAnswer geoAnswer weatherData geoData w,
      weather_request_gave weatherAnswer weatherData ->
      geo_request_gave geoAnswer geoData ->
      let w' := snd (fetchWeather lat lon weatherAnswer geoAnswer w) in
      selectedLocation (ui w') = newLocation lat lon weatherData (address_of geoData)
      /\ selected_heads_history (ui w'))
  /\ (forall actions,
         let s := ui (run parseFloat actions initial_world) in
         recentLocations s = [] \/ selected_heads_history s).
Proof.
  split.
  - intros lat lon wa ga wd gd w Hw Hg. cbv zeta.
    rewrite (fetchWeather_success lat lon wa ga wd gd w Hw Hg).
    split; reflexivity.
  - intros actions. cbv zeta.
    assert (Hgen : forall w, recentLocations (ui w) = [] \/ selected_heads_history (ui w) ->
                   recentLocations (ui (run parseFloat actions w)) = []
                   \/ selected_heads_history (ui (run parseFloat actions w))).
    { induction actions as [|a rest IH]; intros w Hinv; cbn [run]; [exact Hinv|].
      apply IH. now apply handle_selected_heads_history. }
    apply Hgen. left. reflexivity.
Qed.

Lemma selected_location_heads_history_witness :
  let w' := snd (fetchWeather (Sample.coordinate 1) (Sample.coordinate 2)
                              Sample.weather_ok Sample.geo_no_address initial_world) in
  weather_request_gave Sample.weather_ok Sample.weatherData
  /\ geo_request_gave Sample.geo_no_address {| GeoJson.address := None |}
  /\ selected_heads_history (ui w')
  /\ LocationData.name (selectedLocation (ui w')) = unknown_location.
Proof.
  cbv zeta.
  assert (Hw : weather_request_gave Sample.weather_ok Sample.weatherData)
    by (split; reflexivity).
  assert (Hg : geo_request_gave Sample.geo_no_address {| GeoJson.address := None |})
    by reflexivity.
  split; [exact Hw|]. split; [exact Hg|].
  destruct (proj1 (selected_location_heads_history Sample.parseFloat)
              (Sample.coordinate 1) (Sample.coordinate 2) _ _ _ _ initial_world Hw Hg)
    as [Hsel Hhead].
  split; [exact Hhead|]. rewrite Hsel. reflexivity.
Defined.

(** *** Failures *)

(** C4. When the weather request fails (network error or non-success
    status), [fetchWeather] returns normally instead of throwing, the
    selected location and the recent-locations list are what they were,
    the reverse-geocode request is never made and the only notification is
    the error toast; the same holds for every handler of the component that
    is given this answer to its weather request. *)
Theorem weather_failure_is_contained (parseFloat : string -> JS.number)
    (lat lon : JS.number) (weatherAnswer : reply WeatherJson.t)
    (geoAnswer : reply GeoJson.t) (w : World) :
  weather_request_failed weatherAnswer ->
  (let result := fetchWeather lat lon weatherAnswer geoAnswer w in
   fst result = Returned tt
   /\ selectedLocation (ui (snd result)) = selectedLocation (ui w)
   /\ recentLocations (ui (snd result)) = recentLocations (ui w)
   /\ exists e : exn,
        trace (snd result)
        = (trace w ++ [Fetch (WeatherRequest lat lon);
                       ConsoleError "Weather fetch error:" e;
                       Toast error "날씨 정보를 가져오는데 실패했습니다"])%list)
  /\ (forall a : action,
         weather_answer_of a = Some weatherAnswer ->
         let result := handle parseFloat a w in
         fst result = Returned tt
         /\ selectedLocation (ui (snd result)) = selectedLocation (ui w)
         /\ recentLocations (ui (snd result)) = recentLocations (ui w)).
Proof.
  intros Hfail. split.
  - cbv zeta.
    destruct (fetchWeather_weather_failure lat lon weatherAnswer geoAnswer w Hfail)
      as [e E].
    rewrite E. cbn [fst snd after_failure ui trace selectedLocation recentLocations].
    repeat split. exists e. reflexivity.
  - intros a Ha. cbv zeta.
    destruct (handle_summary parseFloat a w)
      as (w' & E & [[Hsel Hrec]|[_ (answer & Hanswer & Hnot)]]);
      rewrite E; cbn [fst snd].
    + auto.
    + exfalso. apply Hnot. congruence.
Qed.

Lemma weather_failure_is_contained_witness :
  let w := run Sample.parseFloat [Mount Sample.weather_ok Sample.geo_ok] initial_world in
  let result := fetchWeather (Sample.coordinate 4) (Sample.coordinate 4)
                             Sample.weather_unavailable Sample.geo_ok w in
  weather_request_failed Sample.weather_unavailable
  /\ fst result = Returned tt
  /\ selectedLocation (ui (snd result)) = selectedLocation (ui w)
  /\ recentLocations (ui (snd result)) = recentLocations (ui w).
Proof.
  cbv zeta.
  assert (Hfail : weather_request_failed Sample.weather_unavailable) by reflexivity.
  split; [exact Hfail|].
  destruct (weather_failure_is_contained Sample.parseFloat
              (Sample.coordinate 4) (Sample.coordinate 4)
              Sample.weather_unavailable Sample.geo_ok
              (run Sample.parseFloat [Mount Sample.weather_ok Sample.geo_ok] initial_world)
              Hfail) as [(Hret & Hsel & Hrec & _) _].
  auto.
Defined.




(** *** The display name *)

Lemma push_if_truthy_app (field : option string) (parts : list string) :
  push_if_truthy field parts = (parts ++ option_list (present field))%list.
Proof.
  destruct field as [s|]; simpl; [|now rewrite app_nil_r].
  destruct (s =? "")%string; simpl; [now rewrite app_nil_r|reflexivity].
Qed.

Lemma present_fields_cons (field : Address.t -> option string)
    (order : list (Address.t -> option string)) (addr : Address.t) :
  present_fields (field :: order) addr
  = (option_list (present (field addr)) ++ present_fields order addr)%list.
Proof.
  cbn [present_fields]. now destruct (present (field addr)).
Qed.

Lemma locationParts_by_priority (addr : Address.t) :
  locationParts addr = present_fields full_priority addr.
Proof.
  unfold locationParts, full_priority.
  rewrite !push_if_truthy_app, !present_fields_cons.
  cbn [present_fields app]. rewrite app_nil_r, <- !app_assoc. reflexivity.
Qed.

Lemma present_fields_In (order : list (Address.t -> option string)) (addr : Address.t)
    (field : Address.t -> option string) (s : string) :
  In field order -> present (field addr) = Some s -> In s (present_fields order addr).
Proof.
  induction order as [|f order IH]; [intros []|].
  intros [->|Hin] Hs; cbn [present_fields].
  - rewrite Hs. now left.
  - destruct (present (f addr)); [right|]; auto.
Qed.

(** C6, as the specification states it, fails: [city_district] is a
    locality field of its own, ahead of [district], which the listed order
    leaves out. *)
Lemma city_district_is_used :
  locationName Sample.district_address = "중구, 서울"
  /\ display_name_by listed_priority Sample.district_address = "서울"
  /\ locationName Sample.district_address
     <> display_name_by listed_priority Sample.district_address.
Proof.
  split; [reflexivity|]. split; [reflexivity|]. discriminate.
Qed.

(** C6, amended. The display name is made of the populated fields in the
    order neighbourhood, suburb, village, hamlet, then city_district,
    district, borough, then city, town, county: the first two of them
    joined by a comma and a space, the first alone when there is only one,
    the placeholder when there is none; with both neighbourhood and city
    populated the name starts with the neighbourhood, followed by the next
    most specific populated field. *)
Theorem locationName_by_priority (addr : Address.t) :
  locationName addr = display_name_by full_priority addr
  /\ (present_fields full_priority addr = [] -> locationName addr = unknown_location)
  /\ (forall n c : string,
         present (Address.neighbourhood addr) = Some n ->
         present (Address.city addr) = Some c ->
         exists second others,
           present_fields full_priority addr = n :: second :: others
           /\ locationName addr = n ++ ", " ++ second).
Proof.
  assert (Hname : locationName addr = display_name_by full_priority addr).
  { unfold locationName, display_name_by. rewrite locationParts_by_priority.
    destruct (present_fields full_priority addr) as [|a [|b rest]]; reflexivity. }
  split; [exact Hname|]. split.
  - intros Hnone. rewrite Hname. unfold display_name_by. now rewrite Hnone.
  - intros n c Hn Hc. rewrite Hname. unfold display_name_by.
    unfold full_priority. rewrite present_fields_cons, Hn. cbn [option_list app].
    match goal with
    | |- context [present_fields ?order addr] =>
        assert (Hin : In c (present_fields order addr))
          by (apply (present_fields_In order addr Address.city);
              [simpl; tauto|exact Hc]);
        destruct (present_fields order addr) as [|second others]; [destruct Hin|]
    end.
    exists second, others. split; reflexivity.
Qed.

Lemma locationName_by_priority_witness :
  present (Address.neighbourhood Sample.seoul_address) = Some "명동"
  /\ present (Address.city Sample.seoul_address) = Some "서울"
  /\ locationName Sample.seoul_address = "명동, 중구".
Proof.
  split; [reflexivity|]. split; [reflexivity|].
  destruct (locationName_by_priority Sample.seoul_address) as (_ & _ & Hboth).
  destruct (Hboth "명동" "서울" eq_refl eq_refl) as (second & others & Hfields & Hname).
  rewrite Hname. injection Hfields as <- _. reflexivity.
Defined.

(** *** The blank query *)

Lemma trim_start_blank (s : jsstring) :
  Forall (fun c => is_white_space c = true) s -> trim_start s = [].
Proof.
  induction 1 as [|c s Hc _ IH]; cbn [trim_start]; [reflexivity|].
  now rewrite Hc.
Qed.

Lemma trim_blank (s : jsstring) :
  Forall (fun c => is_white_space c = true) s -> trim s = [].
Proof.
  intros Hblank. unfold trim. now rewrite (trim_start_blank s Hblank).
Qed.

(** C7. With a search box that is empty or holds only white space,
    [searchCity] returns at once: the world after it is the world before
    it, so no request went out, nothing was notified and no piece of state
    changed. *)
Theorem searchCity_blank_is_noop (parseFloat : string -> JS.number)
    (searchAnswer : reply (list SearchHit.t)) (weatherAnswer : reply WeatherJson.t)
    (geoAnswer : reply GeoJson.t) (w : World) :
  Forall (fun c => is_white_space c = true) (searchQuery (ui w)) ->
  searchCity parseFloat searchAnswer weatherAnswer geoAnswer w = (Returned tt, w).
Proof.
  intros Hblank. unfold searchCity, bind, read.
  now rewrite (trim_blank _ Hblank).
Qed.

Lemma searchCity_blank_is_noop_witness :
  let blank : jsstring := [32; 9; 12288; 160; 10]%N in
  let w := snd (handle Sample.parseFloat (TypeQuery blank) initial_world) in
  searchQuery (ui w) = blank
  /\ searchCity Sample.parseFloat
                (Responded {| ok := true;
                              body := Some (Shaped [{| SearchHit.lat := "37.5665";
                                                       SearchHit.lon := "126.9780" |}]) |})
                Sample.weather_ok Sample.geo_ok w
     = (Returned tt, w)
  /\ searchCity Sample.parseFloat NetworkError Sample.weather_ok Sample.geo_ok initial_world
     = (Returned tt, initial_world).
Proof.
  cbv zeta. split; [reflexivity|]. split.
  - apply searchCity_blank_is_noop. cbn. repeat constructor.
  - apply searchCity_blank_is_noop. cbn. constructor.
Defined.

(** A query with something in it does go out. *)
Example searchCity_seoul :
  let seoul : jsstring := [32; 49436; 50872; 32]%N in
  let w := snd (handle Sample.parseFloat (TypeQuery seoul) initial_world) in
  let result :=
    searchCity Sample.parseFloat
               (Responded {| ok := true;
                             body := Some (Shaped [{| SearchHit.lat := "37.5665";
                                                      SearchHit.lon := "126.9780" |}]) |})
               Sample.weather_ok Sample.geo_ok w in
  fst result = Returned tt
  /\ map (fun e => match e with Fetch r => Some r | _ => None end) (trace (snd result))
     = [Some (SearchRequest seoul);
        Some (WeatherRequest (JS.Finite (375665 # 10000)) (JS.Finite (126978 # 1000)));
        Some (ReverseRequest (JS.Finite (375665 # 10000)) (JS.Finite (126978 # 1000)));
        None]
  /\ LocationData.name (selectedLocation (ui (snd result))) = "명동, 중구"
  /\ List.length (recentLocations (ui (snd result))) = 1%nat
  /\ loading (ui (snd result)) = false.
Proof.
  cbv zeta. repeat split.
Qed.

(** *** The weather record *)

Lemma Math_round_nearest (x : JS.number) : nearest_whole x (JS.Math_round x).
Proof.
  destruct x as [|s|q]; cbn [nearest_whole JS.Math_round]; try reflexivity.
  set (n := Qfloor (q + (1 # 2))).
  exists n. split; [reflexivity|]. intros m.
  pose proof (Qfloor_le (q + (1 # 2))) as Hlo.
  pose proof (Qlt_floor (q + (1 # 2))) as Hhi.
  fold n in Hlo, Hhi. rewrite inject_Z_plus in Hhi.
  change (inject_Z 1) with 1%Q in Hhi.
  assert (Hnear : Qabs (q - inject_Z n) <= 1 # 2).
  { apply Qabs_Qle_condition. split; lra. }
  destruct (Z.eq_dec m n) as [->|Hne]; [apply Qle_refl|].
  apply (Qle_trans _ (1 # 2)); [exact Hnear|].
  destruct (Z_lt_le_dec m n) as [Hlt|Hge].
  - assert (Hm : inject_Z (m + 1) <= inject_Z n) by (rewrite <- Zle_Qle; lia).
    rewrite inject_Z_plus in Hm. change (inject_Z 1) with 1%Q in Hm.
    apply (Qle_trans _ (q - inject_Z m)); [lra|apply Qle_Qabs].
  - assert (Hm : inject_Z (n + 1) <= inject_Z m) by (rewrite <- Zle_Qle; lia).
    rewrite inject_Z_plus in Hm. change (inject_Z 1) with 1%Q in Hm.
    apply (Qle_trans _ (- (q - inject_Z m))); [lra|].
    rewrite <- Qabs_opp. apply Qle_Qabs.
Qed.

(** C8. In the location a lookup that went through selects, temperature,
    feels-like temperature, wind speed and pressure are the upstream
    values rounded to a nearest whole number, humidity is the upstream
    value itself, visibility is 10 and the UV index is 3. *)
Theorem weather_record_fields (lat lon : JS.number)
    (weatherAnswer : reply WeatherJson.t) (geoAnswer : reply GeoJson.t)
    (weatherData : WeatherJson.t) (geoData : GeoJson.t) (w : World) :
  weather_request_gave weatherAnswer weatherData ->
  geo_request_gave geoAnswer geoData ->
  let result := fetchWeather lat lon weatherAnswer geoAnswer w in
  let upstream := WeatherJson.current weatherData in
  exists record : WeatherData.t,
    LocationData.weather (selectedLocation (ui (snd result))) = Some record
    /\ nearest_whole (JS.ToNumber (Current.temperature_2m upstream))
                     (WeatherData.temp record)
    /\ nearest_whole (JS.ToNumber (Current.apparent_temperature upstream))
                     (WeatherData.feelsLike record)
    /\ nearest_whole (JS.ToNumber (Current.wind_speed_10m upstream))
                     (WeatherData.windSpeed record)
    /\ nearest_whole (JS.ToNumber (Current.surface_pressure upstream))
                     (WeatherData.pressure record)
    /\ WeatherData.humidity record = Current.relative_humidity_2m upstream
    /\ WeatherData.visibility record = JS.of_Z 10
    /\ WeatherData.uv record = JS.of_Z 3.
Proof.
  intros Hw Hg. cbv zeta.
  rewrite (fetchWeather_success lat lon weatherAnswer geoAnswer weatherData geoData w Hw Hg).
  eexists. split; [reflexivity|].
  cbn [weather WeatherData.temp WeatherData.feelsLike WeatherData.windSpeed
       WeatherData.pressure WeatherData.humidity WeatherData.visibility WeatherData.uv].
  repeat split; apply Math_round_nearest.
Qed.

Lemma weather_record_fields_witness :
  let result := fetchWeather (Sample.coordinate 1) (Sample.coordinate 2)
                             Sample.weather_ok Sample.geo_ok initial_world in
  weather_request_gave Sample.weather_ok Sample.weatherData
  /\ geo_request_gave Sample.geo_ok {| GeoJson.address := Some Sample.seoul_address |}
  /\ exists record : WeatherData.t,
       LocationData.weather (selectedLocation (ui (snd result))) = Some record
       /\ WeatherData.temp record = JS.of_Z 18
       /\ WeatherData.feelsLike record = JS.of_Z (-2)
       /\ WeatherData.windSpeed record = JS.of_Z 8
       /\ WeatherData.pressure record = JS.of_Z 1013
       /\ WeatherData.humidity record = Sample.num (56 # 1)
       /\ WeatherData.visibility record = JS.of_Z 10
       /\ WeatherData.uv record = JS.of_Z 3.
Proof.
  cbv zeta.
  assert (Hw : weather_request_gave Sample.weather_ok Sample.weatherData)
    by (split; reflexivity).
  assert (Hg : geo_request_gave Sample.geo_ok
                 {| GeoJson.address := Some Sample.seoul_address |}) by reflexivity.
  split; [exact Hw|]. split; [exact Hg|].
  destruct (weather_record_fields (Sample.coordinate 1) (Sample.coordinate 2)
              Sample.weather_ok Sample.geo_ok Sample.weatherData _ initial_world Hw Hg)
    as (record & Hrecord & _ & _ & _ & _ & Hhumidity & Hvisibility & Huv).
  exists record. split; [exact Hrecord|].
  injection Hrecord as <-.
  repeat split; try reflexivity.
Defined.

(** *** The forecast *)

Lemma mapi_from_length {A B : Type} (f : A -> nat -> B) (arr : list A) :
  forall start, List.length (mapi_from start f arr) = List.length arr.
Proof.
  induction arr as [|x rest IH]; intros start; cbn [mapi_from List.length];
    [reflexivity|].
  now rewrite IH.
Qed.

Lemma mapi_from_nth_error {A B : Type} (f : A -> nat -> B) (arr : list A) :
  forall start i,
    nth_error (mapi_from start f arr) i
    = option_map (fun x => f x (start + i)%nat) (nth_error arr i).
Proof.
  induction arr as [|x rest IH]; intros start [|i]; cbn [mapi_from nth_error option_map];
    try reflexivity.
  - now rewrite Nat.add_0_r.
  - rewrite IH. now rewrite Nat.add_succ_comm.
Qed.

Lemma nth_error_firstn_lt {A : Type} (arr : list A) :
  forall n i, (i < n)%nat -> nth_error (firstn n arr) i = nth_error arr i.
Proof.
  induction arr as [|x rest IH]; intros [|n] [|i] Hlt; cbn [firstn nth_error];
    try reflexivity; try lia.
  apply IH. lia.
Qed.

Lemma map_mapi_from {A B C : Type} (g : B -> C) (f : A -> nat -> B) (arr : list A) :
  forall start, map g (mapi_from start f arr) = mapi_from start (fun x i => g (f x i)) arr.
Proof.
  induction arr as [|x rest IH]; intros start; cbn [mapi_from map]; [reflexivity|].
  now rewrite IH.
Qed.

Lemma mapi_from_fst {A : Type} (arr : list A) :
  forall start, mapi_from start (fun x _ => x) arr = arr.
Proof.
  induction arr as [|x rest IH]; intros start; cbn [mapi_from]; [reflexivity|].
  now rewrite IH.
Qed.

(** C9. The forecast of a lookup that went through has as many days as
    the upstream [daily.time] array, five at most; its dates are the first
    dates of that array in the same order; and its i-th day is built from
    the i-th elements of the upstream arrays, the first from index 0. *)
Theorem forecast_shape (lat lon : JS.number)
    (weatherAnswer : reply WeatherJson.t) (geoAnswer : reply GeoJson.t)
    (weatherData : WeatherJson.t) (geoData : GeoJson.t) (w : World) :
  weather_request_gave weatherAnswer weatherData ->
  geo_request_gave geoAnswer geoData ->
  let result := fetchWeather lat lon weatherAnswer geoAnswer w in
  let daily := WeatherJson.daily weatherData in
  exists days : list ForecastDay.t,
    LocationData.forecast (selectedLocation (ui (snd result))) = Some days
    /\ List.length days = Nat.min 5 (List.length (Daily.time daily))
    /\ map ForecastDay.date days = firstn 5 (Daily.time daily)
    /\ forall i : nat,
         (i < List.length days)%nat ->
         exists day : ForecastDay.t,
           nth_error days i = Some day
           /\ nth_error (Daily.time daily) i = Some (ForecastDay.date day)
           /\ ForecastDay.maxTemp day
              = JS.Math_round (JS.ToNumber (JS.index (Daily.temperature_2m_max daily) i))
           /\ ForecastDay.minTemp day
              = JS.Math_round (JS.ToNumber (JS.index (Daily.temperature_2m_min daily) i))
           /\ ForecastDay.condition day
              = weatherCodeToCondition (JS.index (Daily.weather_code daily) i).
Proof.
  intros Hw Hg. cbv zeta.
  rewrite (fetchWeather_success lat lon weatherAnswer geoAnswer weatherData geoData w Hw Hg).
  eexists. split; [reflexivity|].
  unfold forecast, mapi.
  split; [now rewrite mapi_from_length, length_firstn|].
  split.
  - rewrite map_mapi_from. cbn [ForecastDay.date]. apply mapi_from_fst.
  - intros i Hi. rewrite mapi_from_length, length_firstn in Hi.
    rewrite mapi_from_nth_error, nth_error_firstn_lt by lia.
    destruct (nth_error (Daily.time (WeatherJson.daily weatherData)) i) as [date|] eqn:E.
    + cbn [option_map]. eexists. split; [reflexivity|].
      cbn [ForecastDay.date ForecastDay.maxTemp ForecastDay.minTemp ForecastDay.condition
           Nat.add].
      repeat split.
    + apply nth_error_None in E. lia.
Qed.

Lemma forecast_shape_witness :
  let forecast_of (data : WeatherJson.t) :=
    LocationData.forecast
      (selectedLocation
         (ui (snd (fetchWeather (Sample.coordinate 1) (Sample.coordinate 2)
                                (Responded {| ok := true; body := Some (Shaped data) |})
                                Sample.geo_ok initial_world)))) in
  (exists days, forecast_of Sample.weatherData = Some days
                /\ List.length days = 5%nat
                /\ map ForecastDay.date days
                   = ["2024-05-01"; "2024-05-02"; "2024-05-03"; "2024-05-04"; "2024-05-05"])
  /\ (exists days, forecast_of Sample.shortWeatherData = Some days
                   /\ List.length days = 3%nat
                   /\ map ForecastDay.condition days
                      = [label_clear; label_rain; label_thunderstorm]).
Proof.
  cbv zeta. split.
  - destruct (forecast_shape (Sample.coordinate 1) (Sample.coordinate 2)
                (Responded {| ok := true; body := Some (Shaped Sample.weatherData) |})
                Sample.geo_ok Sample.weatherData
                {| GeoJson.address := Some Sample.seoul_address |} initial_world
                (conj eq_refl eq_refl) eq_refl)
      as (days & Hdays & Hlen & Hdates & _).
    exists days. split; [exact Hdays|]. split; [exact Hlen|exact Hdates].
  - destruct (forecast_shape (Sample.coordinate 1) (Sample.coordinate 2)
                (Responded {| ok := true; body := Some (Shaped Sample.shortWeatherData) |})
                Sample.geo_ok Sample.shortWeatherData
                {| GeoJson.address := Some Sample.seoul_address |} initial_world
                (conj eq_refl eq_refl) eq_refl)
      as (days & Hdays & Hlen & _ & _).
    exists days. split; [exact Hdays|]. split; [exact Hlen|].
    injection Hdays as <-. reflexivity.
Defined.

(** ** Further properties of the handlers *)

(** *** Each handler, summed up *)

Ltac same_trace := rewrite <- ?app_assoc; cbn [app]; reflexivity.

Lemma settled_ui_irrelevant (lat lon : JS.number) (weatherAnswer : reply WeatherJson.t)
    (geoAnswer : reply GeoJson.t) (w : World) (events : list event) (b : bool) :
  settled lat lon weatherAnswer geoAnswer
          {| ui := {| selectedLocation := selectedLocation (ui w);
                      searchQuery := searchQuery (ui w);
                      loading := b;
                      recentLocations := recentLocations (ui w) |};
             trace := trace w ++ events |}
  = settled lat lon weatherAnswer geoAnswer (with_events events w).
Proof.
  unfold settled. now destruct (lookup_outcome_of lat lon weatherAnswer geoAnswer).
Qed.

Lemma settled_idle (lat lon : JS.number) (weatherAnswer : reply WeatherJson.t)
    (geoAnswer : reply GeoJson.t) (w : World) :
  {| ui := idle (ui (settled lat lon weatherAnswer geoAnswer w));
     trace := trace (settled lat lon weatherAnswer geoAnswer w) |}
  = settled lat lon weatherAnswer geoAnswer w.
Proof.
  unfold settled. now destruct (lookup_outcome_of lat lon weatherAnswer geoAnswer).
Qed.

Lemma searchCity_settles (parseFloat : string -> JS.number)
    (searchAnswer : reply (list SearchHit.t)) (weatherAnswer : reply WeatherJson.t)
    (geoAnswer : reply GeoJson.t) (w : World) :
  searchCity parseFloat searchAnswer weatherAnswer geoAnswer w
  = (Returned tt, searchCity_settled parseFloat searchAnswer weatherAnswer geoAnswer w).
Proof.
  destruct w as [[sel q ld rec] t].
  unfold searchCity, searchCity_settled, search_failed, search_found_nothing, idle.
  run_handler.
  destruct (truthy (trim q)); run_handler; [|reflexivity].
  destruct (well_formed q); run_handler; [|same_trace].
  destruct searchAnswer as [|[sok [[[|hit hits]|]|]]]; run_handler;
    try same_trace.
  rewrite fetchWeather_settles.
  match goal with
  | |- context [settled ?a ?b ?wa ?ga ?w0] =>
      change (settled a b wa ga w0)
        with (settled a b wa ga
                (with_events [Fetch (SearchRequest q)]
                             {| ui := {| selectedLocation := sel; searchQuery := q;
                                         loading := ld; recentLocations := rec |};
                                trace := t |}))
  end.
  apply (f_equal (pair (Returned tt))). exact (settled_idle _ _ _ _ _).
Qed.

Lemma getCurrentLocation_settles (geolocation : bool) (w : World) :
  getCurrentLocation geolocation w
  = (Returned tt, getCurrentLocation_settled geolocation w).
Proof.
  destruct w as [[sel q ld rec] t].
  unfold getCurrentLocation, getCurrentLocation_settled, locating, with_events.
  destruct geolocation; run_handler; [same_trace|reflexivity].
Qed.

Lemma getCurrentLocation_error_settles (code : Z) (w : World) :
  getCurrentLocation_error code w = (Returned tt, position_failed code w).
Proof.
  destruct w as [[sel q ld rec] t].
  unfold getCurrentLocation_error, position_failed, position_error_message, idle.
  destruct (code =? 1)%Z; [|destruct (code =? 2)%Z; [|destruct (code =? 3)%Z]];
    run_handler; reflexivity.
Qed.

Lemma handle_settles (parseFloat : string -> JS.number) (a : action) (w : World) :
  handle parseFloat a w = (Returned tt, handle_settled parseFloat a w).
Proof.
  destruct a as [wa ga|lat lng wa ga|idx wa ga|value|sa wa ga
                |geolocation|latitude longitude wa ga|code];
    cbn [handle handle_settled].
  - unfold bind, read. apply fetchWeather_settles.
  - apply fetchWeather_settles.
  - unfold bind, read.
    destruct (nth_error (recentLocations (ui w)) idx); [apply fetchWeather_settles|].
    reflexivity.
  - reflexivity.
  - apply searchCity_settles.
  - apply getCurrentLocation_settles.
  - apply fetchWeather_settles.
  - apply getCurrentLocation_error_settles.
Qed.

(** *** Blank and non-blank queries *)

Lemma trim_start_nil_blank (s : jsstring) :
  trim_start s = [] -> Forall (fun c => is_white_space c = true) s.
Proof.
  induction s as [|c rest IH]; cbn [trim_start]; [constructor|].
  destruct (is_white_space c) eqn:Hc; [|discriminate].
  intros Hrest. constructor; auto.
Qed.

Lemma trim_start_head (s : jsstring) (c : N) (rest : jsstring) :
  trim_start s = c :: rest -> is_white_space c = false.
Proof.
  induction s as [|d s' IH]; cbn [trim_start]; [discriminate|].
  destruct (is_white_space d) eqn:Hd; [exact IH|].
  intros [= <- _]. exact Hd.
Qed.

Lemma rev_nil_inv {A : Type} (l : list A) : rev l = [] -> l = [].
Proof.
  intros H. apply (f_equal (@List.length A)) in H. rewrite length_rev in H.
  now destruct l.
Qed.

Lemma trim_nil_blank (s : jsstring) :
  trim s = [] -> Forall (fun c => is_white_space c = true) s.
Proof.
  unfold trim, trim_end. intros H.
  apply rev_nil_inv, trim_start_nil_blank in H.
  apply trim_start_nil_blank.
  destruct (trim_start s) as [|c rest] eqn:E; [reflexivity|].
  apply trim_start_head in E.
  rewrite Forall_forall in H. rewrite (H c) in E; [discriminate|].
  apply in_rev. rewrite rev_involutive. now left.
Qed.

Lemma blank_iff (s : jsstring) :
  truthy (trim s) = false <-> Forall (fun c => is_white_space c = true) s.
Proof.
  split.
  - intros H. apply trim_nil_blank. now destruct (trim s).
  - intros H. now rewrite (trim_blank s H).
Qed.

Lemma not_blank (s : jsstring) :
  Exists (fun c => is_white_space c = false) s -> truthy (trim s) = true.
Proof.
  intros Hex. destruct (truthy (trim s)) eqn:E; [reflexivity|].
  apply blank_iff in E. apply Exists_exists in Hex as (c & Hin & Hc).
  rewrite Forall_forall in E. rewrite (E c Hin) in Hc. discriminate.
Qed.

(** *** The loading flag and the search box *)


Lemma settled_searchQuery (lat lon : JS.number) (weatherAnswer : reply WeatherJson.t)
    (geoAnswer : reply GeoJson.t) (w : World) :
  searchQuery (ui (settled lat lon weatherAnswer geoAnswer w)) = searchQuery (ui w).
Proof.
  unfold settled. now destruct (lookup_outcome_of lat lon weatherAnswer geoAnswer).
Qed.





(** X2. Only typing changes the content of the search box: a search, a
    map click, a click on a recent location, locating and the mount
    lookup leave it as it is, whether they succeed or fail. *)
Theorem search_box_only_typed (parseFloat : string -> JS.number) (a : action) (w : World) :
  searchQuery (ui (snd (handle parseFloat a w)))
  = match a with
    | TypeQuery value => value
    | _ => searchQuery (ui w)
    end.
Proof.
  rewrite handle_settles. cbn [snd].
  destruct a as [wa ga|lat lng wa ga|idx wa ga|value|sa wa ga
                |geolocation|latitude longitude wa ga|code];
    cbn [handle_settled].
  - apply settled_searchQuery.
  - apply settled_searchQuery.
  - destruct (nth_error (recentLocations (ui w)) idx); [apply settled_searchQuery|reflexivity].
  - reflexivity.
  - unfold searchCity_settled.
    destruct (truthy (trim (searchQuery (ui w)))); cbn [negb]; [|reflexivity].
    destruct (well_formed (searchQuery (ui w))); cbn [negb]; [|reflexivity].
    destruct sa as [|[sok [[[|hit hits]|]|]]]; cbn [body]; try reflexivity.
    now rewrite settled_searchQuery.
  - now destruct geolocation.
  - apply settled_searchQuery.
  - reflexivity.
Qed.

(** *** Notifications and requests of one lookup *)

Ltac not_answered :=
  let H := fresh in
  intro H; cbn in H; decompose [ex and] H;
  try tauto; try discriminate; try congruence.

(** X3. One call of [fetchWeather] shows exactly one toast: the success
    toast, naming the new location, when both services delivered a
    document of the expected shape, and the error toast, with selection
    and list untouched, in every other case (a request that fails, a
    status that is not a success, a body that does not parse, a parsed
    body off which the code cannot read what it reads). *)
Theorem fetchWeather_notifies_once (lat lon : JS.number)
    (weatherAnswer : reply WeatherJson.t) (geoAnswer : reply GeoJson.t) (w : World) :
  let w' := snd (fetchWeather lat lon weatherAnswer geoAnswer w) in
  exists events : list event,
    trace w' = (trace w ++ events)%list
    /\ ((exists weatherData geoData,
            weather_request_gave weatherAnswer weatherData
            /\ geo_request_gave geoAnswer geoData
            /\ toasts_in events
               = [(success,
                   LocationData.name
                     (newLocation lat lon weatherData (address_of geoData))
                   ++ "의 날씨 정보를 가져왔습니다")]
            /\ selectedLocation (ui w')
               = newLocation lat lon weatherData (address_of geoData))
        \/ (~ both_answered weatherAnswer geoAnswer
            /\ toasts_in events = [(error, "날씨 정보를 가져오는데 실패했습니다")]
            /\ untouched w w')).
Proof.
  cbv zeta. rewrite fetchWeather_settles. cbn [snd].
  unfold settled, lookup_outcome_of, both_answered, untouched.
  destruct weatherAnswer as [|[[|] [[weatherData|]|]]];
    destruct geoAnswer as [|[gok [[geoData|]|]]];
    cbn [ok body after_success after_failure ui trace];
    eexists; (split; [reflexivity|]);
    first [ solve [left; exists weatherData, geoData; cbn; repeat split]
          | right; (split; [not_answered|]); split; [reflexivity|split; reflexivity] ].
Qed.

Lemma fetchWeather_notifies_once_witness :
  let null_body : reply GeoJson.t := Responded {| ok := true; body := Some Misshaped |} in
  let w' := snd (fetchWeather (Sample.coordinate 1) (Sample.coordinate 2)
                              Sample.weather_ok null_body initial_world) in
  ~ both_answered Sample.weather_ok null_body
  /\ toasts_in (trace w') = [(error, "날씨 정보를 가져오는데 실패했습니다")]
  /\ selectedLocation (ui w') = initial_location.
Proof.
  cbv zeta.
  pose proof (fetchWeather_notifies_once (Sample.coordinate 1) (Sample.coordinate 2)
                Sample.weather_ok (Responded {| ok := true; body := Some Misshaped |})
                initial_world) as H.
  cbv zeta in H.
  destruct H as (events & Htrace & [(wd & gd & _ & Hg & _)|(Hnot & _ & _)]).
  - discriminate Hg.
  - split; [exact Hnot|]. split; reflexivity.
Defined.

(** X4. One call of [fetchWeather] always asks the weather service first,
    for the coordinates it was given; it asks the reverse geocoder, for
    the same coordinates, exactly when the weather response has a success
    status and a body that parses; it makes no other request. *)
Theorem fetchWeather_requests (lat lon : JS.number)
    (weatherAnswer : reply WeatherJson.t) (geoAnswer : reply GeoJson.t) (w : World) :
  let w' := snd (fetchWeather lat lon weatherAnswer geoAnswer w) in
  exists events : list event,
    trace w' = (trace w ++ events)%list
    /\ ((weather_request_parsed weatherAnswer
         /\ requests_in events = [WeatherRequest lat lon; ReverseRequest lat lon])
        \/ (~ weather_request_parsed weatherAnswer
            /\ requests_in events = [WeatherRequest lat lon])).
Proof.
  cbv zeta. rewrite fetchWeather_settles. cbn [snd].
  unfold settled, lookup_outcome_of.
  destruct weatherAnswer as [|[[|] [[weatherData|]|]]];
    destruct geoAnswer as [|[gok [[geoData|]|]]];
    cbn [ok body after_success after_failure ui trace weather_request_parsed];
    eexists; (split; [reflexivity|]);
    first [ solve [left; split; [split; [reflexivity|discriminate]|reflexivity]]
          | right; split; [intros H; cbn in H; decompose [and] H; tauto || discriminate
                          |reflexivity] ].
Qed.

(** *** Searches that leave a trace *)

Lemma settled_trace_grows (lat lon : JS.number) (weatherAnswer : reply WeatherJson.t)
    (geoAnswer : reply GeoJson.t) (w : World) :
  (List.length (trace w) < List.length (trace (settled lat lon weatherAnswer geoAnswer w)))%nat.
Proof.
  unfold settled.
  destruct (lookup_outcome_of lat lon weatherAnswer geoAnswer);
    cbn [after_success after_failure trace]; rewrite ?length_app; cbn [List.length]; lia.
Qed.

(** X5. [searchCity] returns without a trace exactly when the search box
    is empty or all white space: any other content makes it notify or
    ask the network, whatever is answered. *)
Theorem searchCity_noop_iff_blank (parseFloat : string -> JS.number)
    (searchAnswer : reply (list SearchHit.t)) (weatherAnswer : reply WeatherJson.t)
    (geoAnswer : reply GeoJson.t) (w : World) :
  trace (snd (searchCity parseFloat searchAnswer weatherAnswer geoAnswer w)) = trace w
  <-> Forall (fun c => is_white_space c = true) (searchQuery (ui w)).
Proof.
  rewrite searchCity_settles. cbn [snd]. unfold searchCity_settled.
  rewrite <- blank_iff.
  destruct (truthy (trim (searchQuery (ui w)))); cbn [negb]; [|tauto].
  split; [|discriminate]. intros H. exfalso.
  apply (f_equal (@List.length event)) in H. revert H.
  destruct (well_formed (searchQuery (ui w))); cbn [negb].
  - destruct searchAnswer as [|[sok [[[|hit hits]|]|]]];
      cbn [body search_failed search_found_nothing trace];
      rewrite ?length_app; cbn [List.length]; try lia.
    intros H.
    pose proof (settled_trace_grows (parseFloat (SearchHit.lat hit))
                  (parseFloat (SearchHit.lon hit)) weatherAnswer geoAnswer
                  (with_events [Fetch (SearchRequest (searchQuery (ui w)))] w)) as Hgrow.
    cbn [with_events trace] in Hgrow. rewrite length_app in Hgrow. lia.
  - cbn [search_failed trace]. rewrite ?length_app; cbn [List.length]. lia.
Qed.

(** *** Searches that do not reach the weather service *)

(** X6. A search that gets an empty result list, under any status, says
    that the city was not found: it returns normally, shows that one
    error toast, has asked only the geocoder, and leaves selection, list
    and search box as they were, with the loading flag down. *)
Theorem searchCity_not_found (parseFloat : string -> JS.number) (status : bool)
    (weatherAnswer : reply WeatherJson.t) (geoAnswer : reply GeoJson.t) (w : World) :
  Exists (fun c => is_white_space c = false) (searchQuery (ui w)) ->
  well_formed (searchQuery (ui w)) = true ->
  let result := searchCity parseFloat (Responded {| ok := status; body := Some (Shaped []) |})
                           weatherAnswer geoAnswer w in
  fst result = Returned tt
  /\ ui (snd result) = idle (ui w)
  /\ trace (snd result)
     = (trace w ++ [Fetch (SearchRequest (searchQuery (ui w)));
                    Toast error "도시를 찾을 수 없습니다"])%list.
Proof.
  intros Hq Hwf. cbv zeta. rewrite searchCity_settles. cbn [fst snd].
  unfold searchCity_settled. rewrite (not_blank _ Hq), Hwf. cbn [negb body].
  repeat split.
Qed.

Lemma searchCity_not_found_witness :
  let w := snd (handle Sample.parseFloat (TypeQuery [50500; 45716; 44275]%N) initial_world) in
  let result := searchCity Sample.parseFloat (Responded {| ok := true; body := Some (Shaped []) |})
                           Sample.weather_ok Sample.geo_ok w in
  Exists (fun c => is_white_space c = false) (searchQuery (ui w))
  /\ well_formed (searchQuery (ui w)) = true
  /\ toasts_in (trace (snd result)) = [(error, "도시를 찾을 수 없습니다")]
  /\ selectedLocation (ui (snd result)) = initial_location.
Proof.
  cbv zeta.
  assert (Hq : Exists (fun c => is_white_space c = false) [50500; 45716; 44275]%N)
    by (left; reflexivity).
  split; [exact Hq|]. split; [reflexivity|].
  destruct (searchCity_not_found Sample.parseFloat true Sample.weather_ok Sample.geo_ok
              (snd (handle Sample.parseFloat (TypeQuery [50500; 45716; 44275]%N)
                           initial_world)) Hq eq_refl) as (_ & Hui & Htrace).
  rewrite Htrace, Hui. split; reflexivity.
Defined.



(** *** Every source of coordinates ends in [fetchWeather] *)






(** *** The device position *)

(** X10. [getCurrentLocation] with a location service raises the loading
    flag, shows the locating toast, asks for the position (high accuracy,
    ten seconds, no cached position) and returns; without one it shows
    one error toast and changes nothing else. The error callback lowers
    the flag and shows one error toast; neither makes a request, and
    selection, list and search box stay as they were. The codes 1, 2 and
    3 and any other code get four different messages, the missing
    service a fifth. *)
Theorem geolocation_errors (w : World) :
  getCurrentLocation true w
  = (Returned tt,
     {| ui := {| selectedLocation := selectedLocation (ui w);
                 searchQuery := searchQuery (ui w);
                 loading := true;
                 recentLocations := recentLocations (ui w) |};
        trace := trace w ++ [Toast info "위치 정보를 가져오는 중...";
                             GetCurrentPosition true 10000 0] |})
  /\ getCurrentLocation false w
     = (Returned tt,
        {| ui := ui w;
           trace := trace w ++ [Toast error "위치 서비스를 사용할 수 없습니다"] |})
  /\ (forall code : Z,
         getCurrentLocation_error code w
         = (Returned tt,
            {| ui := idle (ui w);
               trace := trace w ++ [Toast error (position_error_message code)] |}))
  /\ NoDup [ position_error_message 1; position_error_message 2;
             position_error_message 3; position_error_message 0;
             "위치 서비스를 사용할 수 없습니다" ]
  /\ (forall code : Z,
         code <> 1%Z -> code <> 2%Z -> code <> 3%Z ->
         position_error_message code = position_error_message 0).
Proof.
  split; [|split; [|split; [|split]]].
  - now rewrite getCurrentLocation_settles.
  - now rewrite getCurrentLocation_settles.
  - intros code. now rewrite getCurrentLocation_error_settles.
  - repeat constructor; cbn [In]; intros H; decompose [or] H; try discriminate; tauto.
  - intros code H1 H2 H3. unfold position_error_message.
    destruct (Z.eqb_spec code 1); [contradiction|].
    destruct (Z.eqb_spec code 2); [contradiction|].
    destruct (Z.eqb_spec code 3); [contradiction|].
    reflexivity.
Qed.

Lemma geolocation_errors_witness :
  position_error_message 7 = position_error_message 0
  /\ position_error_message 7 <> position_error_message 3.
Proof.
  split.
  - apply (geolocation_errors initial_world); lia.
  - discriminate.
Defined.

(** *** The recent-locations list over time *)

Lemma strict_eq_trans (x y z : JS.number) :
  JS.strict_eq x y = true -> JS.strict_eq y z = true -> JS.strict_eq x z = true.
Proof.
  destruct x as [|a|p], y as [|b|q], z as [|c|r]; cbn [JS.strict_eq]; try discriminate.
  - destruct a, b, c; cbn; congruence.
  - intros Hpq Hqr. apply Qeq_bool_iff in Hpq, Hqr. apply Qeq_bool_iff.
    now rewrite Hpq.
Qed.

Lemma same_coordinates_trans (a b c : LocationData.t) :
  same_coordinates a b = true -> same_coordinates b c = true ->
  same_coordinates a c = true.
Proof.
  unfold same_coordinates.
  intros [H1 H2]%andb_true_iff [H3 H4]%andb_true_iff.
  now rewrite (strict_eq_trans _ _ _ H1 H3), (strict_eq_trans _ _ _ H2 H4).
Qed.

(** Among entries with pairwise different coordinates, the entries behind
    one that matches [l] do not match [l]. *)
Lemma others_differ (a l : LocationData.t) (rest : list LocationData.t) :
  same_coordinates a l = true ->
  forallb (fun b => negb (same_coordinates a b)) rest = true ->
  filter (fun e => negb (same_coordinates e l)) rest = rest.
Proof.
  intros Ha Hrest. induction rest as [|b rest IH]; cbn [filter]; [reflexivity|].
  cbn [forallb] in Hrest. apply andb_true_iff in Hrest as [Hb Hrest].
  destruct (same_coordinates b l) eqn:Hbl; cbn [negb].
  - exfalso. apply negb_true_iff in Hb.
    rewrite same_coordinates_sym in Hbl.
    rewrite (same_coordinates_trans a l b Ha Hbl) in Hb. discriminate.
  - now rewrite IH.
Qed.

Lemma filter_length_le {A : Type} (p : A -> bool) (l : list A) :
  (List.length (filter p l) <= List.length l)%nat.
Proof.
  induction l as [|x l IH]; cbn [filter List.length]; [lia|].
  destruct (p x); cbn [List.length]; lia.
Qed.

Lemma at_most_one_matches (l : LocationData.t) (h : list LocationData.t) :
  distinct_coordinates h = true ->
  (List.length h <= S (List.length (filter (fun e => negb (same_coordinates e l)) h)))%nat.
Proof.
  induction h as [|a rest IH]; cbn [distinct_coordinates filter List.length]; [lia|].
  intros [Ha Hrest]%andb_true_iff.
  destruct (same_coordinates a l) eqn:Hal; cbn [negb List.length].
  - rewrite (others_differ a l rest Hal Ha). lia.
  - specialize (IH Hrest). lia.
Qed.

Lemma record_length (h : list LocationData.t) (l : LocationData.t) :
  history_ok h ->
  (List.length h <= List.length (record h l) <= S (List.length h))%nat.
Proof.
  intros [Hlen Hdistinct]. rewrite record_cons. cbn [List.length].
  rewrite length_firstn.
  pose proof (at_most_one_matches l h Hdistinct).
  pose proof (filter_length_le (fun e => negb (same_coordinates e l)) h).
  lia.
Qed.

Lemma run_app (parseFloat : string -> JS.number) (actions more : list action) (w : World) :
  run parseFloat (actions ++ more) w = run parseFloat more (run parseFloat actions w).
Proof.
  revert w. induction actions as [|a rest IH]; intros w; cbn [run app]; [reflexivity|].
  apply IH.
Qed.

(** X11. With the list within its invariant, recording keeps every old
    entry or drops exactly one (the one with the same coordinates, or the
    fifth), so the list never gets shorter and grows by at most one; this
    holds for every handler, and along any run the length only goes up. *)
Theorem history_never_shrinks (parseFloat : string -> JS.number) :
  (forall h l,
      history_ok h ->
      (List.length h <= List.length (record h l) <= S (List.length h))%nat)
  /\ (forall a w,
         history_ok (recentLocations (ui w)) ->
         let after := recentLocations (ui (snd (handle parseFloat a w))) in
         (List.length (recentLocations (ui w)) <= List.length after
          <= S (List.length (recentLocations (ui w))))%nat)
  /\ (forall actions a,
         (List.length (recentLocations (ui (run parseFloat actions initial_world)))
          <= List.length
               (recentLocations (ui (run parseFloat (actions ++ [a]) initial_world))))%nat).
Proof.
  assert (Hhandle : forall a w,
             history_ok (recentLocations (ui w)) ->
             (List.length (recentLocations (ui w))
              <= List.length (recentLocations (ui (snd (handle parseFloat a w))))
              <= S (List.length (recentLocations (ui w))))%nat).
  { intros a w Hok.
    destruct (handle_summary parseFloat a w) as (w' & E & [[_ H]|[H _]]);
      rewrite E; cbn [snd]; rewrite H; [lia|].
    now apply record_length. }
  split; [exact record_length|]. split; [exact Hhandle|].
  intros actions a. rewrite run_app. cbn [run].
  apply Hhandle. apply run_history_ok. split; [cbn; lia|reflexivity].
Qed.

Lemma history_never_shrinks_witness :
  let w := run Sample.parseFloat Sample.busy_session initial_world in
  let a := MapClick (Sample.coordinate 5) (Sample.coordinate 5)
                    Sample.weather_ok Sample.geo_ok in
  history_ok (recentLocations (ui w))
  /\ List.length (recentLocations (ui (snd (handle Sample.parseFloat a w)))) = 5%nat.
Proof.
  cbv zeta.
  assert (Hok : history_ok (recentLocations
                              (ui (run Sample.parseFloat Sample.busy_session initial_world)))).
  { split; [vm_compute; lia|vm_compute; reflexivity]. }
  split; [exact Hok|].
  destruct (history_never_shrinks Sample.parseFloat) as (_ & Hhandle & _).
  specialize (Hhandle (MapClick (Sample.coordinate 5) (Sample.coordinate 5)
                                Sample.weather_ok Sample.geo_ok) _ Hok).
  cbv zeta in Hhandle.
  destruct Hok as [Hfive _].
  assert (Hlen : List.length
                   (recentLocations
                      (ui (run Sample.parseFloat Sample.busy_session initial_world)))
                 = 5%nat) by (vm_compute; reflexivity).
  rewrite Hlen in Hhandle.
  pose proof (run_history_ok Sample.parseFloat
                (Sample.busy_session
                 ++ [MapClick (Sample.coordinate 5) (Sample.coordinate 5)
                              Sample.weather_ok Sample.geo_ok])
                initial_world (conj (Nat.le_0_l 5) eq_refl)) as [Hmax _].
  rewrite run_app in Hmax. cbn [run] in Hmax. lia.
Defined.

Lemma matching_entry_removed (new loc : LocationData.t) :
  same_coordinates new loc = true ->
  forall (h : list LocationData.t) (idx : nat),
    distinct_coordinates h = true ->
    nth_error h idx = Some loc ->
    filter (fun e => negb (same_coordinates e new)) h
    = (firstn idx h ++ skipn (S idx) h)%list.
Proof.
  intros Hnew. induction h as [|a rest IH]; intros [|idx] Hdistinct Hnth;
    cbn [nth_error] in Hnth; try discriminate;
    cbn [distinct_coordinates] in Hdistinct;
    apply andb_true_iff in Hdistinct as [Ha Hrest].
  - injection Hnth as ->. cbn [filter firstn skipn app].
    rewrite (same_coordinates_sym loc new), Hnew. cbn [negb].
    apply (others_differ loc new rest); [now rewrite same_coordinates_sym|exact Ha].
  - cbn [filter firstn skipn app].
    assert (Hal : same_coordinates a loc = false).
    { apply nth_error_In in Hnth. rewrite forallb_forall in Ha.
      now apply negb_true_iff, Ha. }
    destruct (same_coordinates a new) eqn:Han; cbn [negb].
    + rewrite (same_coordinates_trans a new loc Han Hnew) in Hal. discriminate.
    + f_equal. now apply IH.
Qed.

(** X12. Clicking a recent location whose lookup goes through moves it
    to the front: the refreshed entry is selected and heads the list, the
    other entries follow in their old order, none is lost and the length
    stays the same. (The coordinates of the entry must be numbers: NaN is
    not equal to itself.) *)
Theorem recent_click_moves_to_front (parseFloat : string -> JS.number) (idx : nat)
    (weatherAnswer : reply WeatherJson.t) (geoAnswer : reply GeoJson.t)
    (weatherData : WeatherJson.t) (geoData : GeoJson.t) (w : World)
    (loc : LocationData.t) :
  history_ok (recentLocations (ui w)) ->
  nth_error (recentLocations (ui w)) idx = Some loc ->
  same_coordinates loc loc = true ->
  weather_request_gave weatherAnswer weatherData ->
  geo_request_gave geoAnswer geoData ->
  let w' := snd (handle parseFloat (RecentClick idx weatherAnswer geoAnswer) w) in
  let refreshed :=
    newLocation (LocationData.lat loc) (LocationData.lon loc) weatherData
                (address_of geoData) in
  selectedLocation (ui w') = refreshed
  /\ recentLocations (ui w')
     = refreshed :: (firstn idx (recentLocations (ui w))
                     ++ skipn (S idx) (recentLocations (ui w)))%list
  /\ List.length (recentLocations (ui w')) = List.length (recentLocations (ui w)).
Proof.
  intros [Hlen Hdistinct] Hnth Hself Hw Hg. cbv zeta.
  cbn [handle]. unfold bind, read. rewrite Hnth.
  rewrite (fetchWeather_success _ _ _ _ weatherData geoData w Hw Hg).
  cbn [snd after_success ui selectedLocation recentLocations].
  split; [reflexivity|].
  set (refreshed := newLocation (LocationData.lat loc) (LocationData.lon loc)
                                weatherData (address_of geoData)).
  assert (Hsame : same_coordinates refreshed loc = true) by exact Hself.
  rewrite record_cons, (matching_entry_removed refreshed loc Hsame _ idx Hdistinct Hnth).
  assert (Hidx : (idx < List.length (recentLocations (ui w)))%nat)
    by (apply nth_error_Some; congruence).
  assert (Hrest : List.length (firstn idx (recentLocations (ui w))
                               ++ skipn (S idx) (recentLocations (ui w)))
                  = Nat.pred (List.length (recentLocations (ui w)))).
  { rewrite length_app, length_firstn, length_skipn. lia. }
  rewrite firstn_all2 by lia.
  split; [reflexivity|]. cbn [List.length]. rewrite Hrest. lia.
Qed.

Lemma recent_click_moves_to_front_witness :
  let w := run Sample.parseFloat Sample.busy_session initial_world in
  let w' := snd (handle Sample.parseFloat
                        (RecentClick 3 Sample.weather_ok Sample.geo_no_address) w) in
  map LocationData.lat (recentLocations (ui w)) = map Sample.coordinate [3; 7; 5; 1; 2]%Z
  /\ map LocationData.lat (recentLocations (ui w')) = map Sample.coordinate [1; 3; 7; 5; 2]%Z
  /\ LocationData.name (selectedLocation (ui w')) = unknown_location.
Proof.
  cbv zeta. split; [vm_compute; reflexivity|].
  assert (Hok : history_ok (recentLocations
                              (ui (run Sample.parseFloat Sample.busy_session initial_world)))).
  { split; [vm_compute; lia|vm_compute; reflexivity]. }
  destruct (nth_error (recentLocations
                         (ui (run Sample.parseFloat Sample.busy_session initial_world))) 3)
    as [loc|] eqn:Hnth; [|vm_compute in Hnth; discriminate].
  assert (Hself : same_coordinates loc loc = true).
  { vm_compute in Hnth. injection Hnth as <-. reflexivity. }
  destruct (recent_click_moves_to_front Sample.parseFloat 3
              Sample.weather_ok Sample.geo_no_address Sample.weatherData
              {| GeoJson.address := None |} _ loc Hok Hnth Hself
              (conj eq_refl eq_refl) eq_refl) as (Hsel & Hrecent & _).
  rewrite Hrecent, Hsel.
  vm_compute in Hnth. injection Hnth as <-.
  split; vm_compute; reflexivity.
Defined.

(** *** Labels and names of what a lookup produces *)

Lemma Qle_bool_false (x y : Q) : Qle_bool x y = false -> y < x.
Proof.
  intros H. apply Qnot_le_lt. intros Hle. apply Qle_bool_iff in Hle. congruence.
Qed.

Lemma weatherCodeToCondition_label (code : JS.value) :
  In (weatherCodeToCondition code) band_labels.
Proof.
  unfold weatherCodeToCondition, band_labels.
  repeat match goal with
         | |- context [if ?c then _ else _] => destruct c
         end; cbn; tauto.
Qed.

(** X13. [weatherCodeToCondition] on any value a weather document can
    hold: the label is always one of the seven; by thresholds on the
    number, whole or not (0 clear, otherwise up to 3 partly cloudy, so
    also every negative number, up to 48 fog, up to 67 rain, up to 77
    snow, up to 82 showers, up to 86 snow, above that thunderstorm); a
    missing code ([undefined]) and NaN give thunderstorm, [null] gives
    partly cloudy. *)
Theorem weatherCodeToCondition_any_value :
  (forall code : JS.value, In (weatherCodeToCondition code) band_labels)
  /\ weatherCodeToCondition JS.Undefined = label_thunderstorm
  /\ weatherCodeToCondition (JS.Num JS.NaN) = label_thunderstorm
  /\ weatherCodeToCondition JS.Null = label_partly_cloudy
  /\ weatherCodeToCondition (JS.Num (JS.Infinity false)) = label_thunderstorm
  /\ weatherCodeToCondition (JS.Num (JS.Infinity true)) = label_partly_cloudy
  /\ forall q : Q,
       let label := weatherCodeToCondition (JS.Num (JS.Finite q)) in
       (q == 0 -> label = label_clear)
       /\ (q < 0 \/ 0 < q <= 3 -> label = label_partly_cloudy)
       /\ (3 < q <= 48 -> label = label_fog)
       /\ (48 < q <= 67 -> label = label_rain)
       /\ (67 < q <= 77 \/ 82 < q <= 86 -> label = label_snow)
       /\ (77 < q <= 82 -> label = label_showers)
       /\ (86 < q -> label = label_thunderstorm).
Proof.
  split; [exact weatherCodeToCondition_label|].
  do 5 (split; [reflexivity|]).
  intros q. cbv zeta.
  unfold weatherCodeToCondition, JS.value_strict_eq, JS.value_le, JS.ToNumber,
    JS.strict_eq, JS.le, JS.of_Z, inject_Z.
  destruct (Qeq_bool q (0 # 1)) eqn:E0;
    [apply Qeq_bool_iff in E0|apply Qeq_bool_neq in E0];
  repeat match goal with
         | |- context [Qle_bool q ?b] =>
             let E := fresh "E" in
             destruct (Qle_bool q b) eqn:E;
             [apply Qle_bool_iff in E|apply Qle_bool_false in E]
         end;
  repeat split; intros; try reflexivity; exfalso; lra.
Qed.

Lemma weatherCodeToCondition_any_value_witness :
  weatherCodeToCondition (JS.Num (JS.Finite (-7 # 2))) = label_partly_cloudy
  /\ weatherCodeToCondition (JS.Num (JS.Finite (965 # 10))) = label_thunderstorm.
Proof.
  destruct weatherCodeToCondition_any_value as (_ & _ & _ & _ & _ & _ & Hq).
  split.
  - apply (Hq (-7 # 2)). left. reflexivity.
  - apply (Hq (965 # 10)). reflexivity.
Defined.

Lemma present_fields_nonempty (order : list (Address.t -> option string))
    (addr : Address.t) (s : string) :
  In s (present_fields order addr) -> s <> "".
Proof.
  induction order as [|field rest IH]; cbn [present_fields]; [intros []|].
  destruct (present (field addr)) as [v|] eqn:E; [|exact IH].
  intros [<-|Hin]; [|auto].
  unfold present in E. destruct (field addr) as [u|]; [|discriminate].
  destruct (u =? "") eqn:Hu; [discriminate|].
  injection E as <-. intros ->. discriminate.
Qed.

Lemma append_nonempty (a b : string) : a <> "" -> (a ++ b)%string <> "".
Proof. destruct a; [congruence|discriminate]. Qed.

Lemma locationParts_nonempty (addr : Address.t) :
  Forall (fun part => part <> "") (locationParts addr).
Proof.
  rewrite locationParts_by_priority. apply Forall_forall.
  intros s. apply present_fields_nonempty.
Qed.

Lemma locationName_nonempty (addr : Address.t) : locationName addr <> "".
Proof.
  pose proof (locationParts_nonempty addr) as Hparts.
  unfold locationName.
  destruct (locationParts addr) as [|a [|b rest]]; cbn [List.length Nat.ltb Nat.leb firstn].
  - discriminate.
  - cbn. now inversion Hparts.
  - cbn [String.concat]. apply append_nonempty. now inversion Hparts.
Qed.

(** X14. The display name is never the empty string, whatever the address
    holds: empty strings in the address are skipped like absent keys, so
    a toast and a recent-location button always have a text. *)
Theorem locationName_never_empty (addr : Address.t) :
  locationName addr <> ""
  /\ Forall (fun part => part <> "") (locationParts addr).
Proof.
  split; [apply locationName_nonempty|apply locationParts_nonempty].
Qed.

(** *** Sunrise and sunset *)

Lemma split_without (sep : ascii) (s : string) :
  mentions sep s = false -> split sep s = [s].
Proof.
  induction s as [|c rest IH]; cbn [mentions split]; [reflexivity|].
  intros [Hc Hrest]%orb_false_iff. rewrite Hc, (IH Hrest). reflexivity.
Qed.

Lemma split_at_first (sep : ascii) (a b : string) :
  mentions sep a = false ->
  split sep (a ++ String sep b) = a :: split sep b.
Proof.
  induction a as [|c rest IH]; cbn [mentions split append].
  - intros _. now rewrite Ascii.eqb_refl.
  - intros [Hc Hrest]%orb_false_iff. rewrite Hc, (IH Hrest). reflexivity.
Qed.

Lemma time_of_day_timestamp (date time : string) (rest : list string) :
  mentions "T" date = false -> mentions "T" time = false ->
  time_of_day ((date ++ "T" ++ time)%string :: rest) = Some time.
Proof.
  intros Hdate Htime. unfold time_of_day.
  change (date ++ "T" ++ time)%string with (date ++ String "T" time)%string.
  rewrite (split_at_first _ _ _ Hdate), (split_without _ _ Htime). reflexivity.
Qed.

Lemma time_of_day_without (s : string) (rest : list string) :
  mentions "T" s = false -> time_of_day (s :: rest) = None.
Proof.
  intros Hs. unfold time_of_day. now rewrite (split_without _ _ Hs).
Qed.

(** X15. Sunrise and sunset of the weather record are the time of day of
    the first timestamp of the upstream array: what stands after the
    [T] of [dateTtime]. Later elements are not looked at; an empty array,
    or a first element without a [T], leaves the field undefined. *)
Theorem sunrise_sunset_time_of_day (weatherData : WeatherJson.t) (addr : Address.t) :
  let daily := WeatherJson.daily weatherData in
  let record := weather weatherData addr in
  (forall date time rest,
      mentions "T" date = false -> mentions "T" time = false ->
      (Daily.sunrise daily = (date ++ "T" ++ time)%string :: rest ->
       WeatherData.sunrise record = Some time)
      /\ (Daily.sunset daily = (date ++ "T" ++ time)%string :: rest ->
          WeatherData.sunset record = Some time))
  /\ (forall s rest,
         mentions "T" s = false ->
         (Daily.sunrise daily = s :: rest -> WeatherData.sunrise record = None)
         /\ (Daily.sunset daily = s :: rest -> WeatherData.sunset record = None))
  /\ (Daily.sunrise daily = [] -> WeatherData.sunrise record = None)
  /\ (Daily.sunset daily = [] -> WeatherData.sunset record = None).
Proof.
  cbv zeta. cbn [weather WeatherData.sunrise WeatherData.sunset].
  split; [|split; [|split]].
  - intros date time rest Hdate Htime.
    split; intros ->; now apply time_of_day_timestamp.
  - intros s rest Hs. split; intros ->; now apply time_of_day_without.
  - now intros ->.
  - now intros ->.
Qed.

Lemma sunrise_sunset_time_of_day_witness :
  WeatherData.sunrise (weather Sample.weatherData Sample.seoul_address) = Some "05:35"
  /\ WeatherData.sunset (weather Sample.weatherData Sample.seoul_address) = Some "19:23".
Proof.
  destruct (sunrise_sunset_time_of_day Sample.weatherData Sample.seoul_address)
    as (Hstamp & _).
  split.
  - apply (Hstamp "2024-05-01" "05:35" ["2024-05-02T05:34"]); reflexivity.
  - apply (Hstamp "2024-05-01" "19:23" ["2024-05-02T19:24"]); reflexivity.
Defined.

(** *** Forecast days with missing upstream values *)

(** X16. A forecast day is built even where the upstream arrays are
    shorter than [daily.time] or hold [null]: a missing weather code
    gives the thunderstorm label and a missing temperature gives NaN; a
    [null] code gives partly cloudy and a [null] temperature gives 0. *)
Theorem forecast_missing_values (weatherData : WeatherJson.t) (i : nat)
    (day : ForecastDay.t) :
  nth_error (forecast weatherData) i = Some day ->
  let daily := WeatherJson.daily weatherData in
  ((List.length (Daily.weather_code daily) <= i)%nat ->
   ForecastDay.condition day = label_thunderstorm)
  /\ ((List.length (Daily.temperature_2m_max daily) <= i)%nat ->
      ForecastDay.maxTemp day = JS.NaN)
  /\ ((List.length (Daily.temperature_2m_min daily) <= i)%nat ->
      ForecastDay.minTemp day = JS.NaN)
  /\ (nth_error (Daily.weather_code daily) i = Some JS.Null ->
      ForecastDay.condition day = label_partly_cloudy)
  /\ (nth_error (Daily.temperature_2m_max daily) i = Some JS.Null ->
      ForecastDay.maxTemp day = JS.of_Z 0)
  /\ (nth_error (Daily.temperature_2m_min daily) i = Some JS.Null ->
      ForecastDay.minTemp day = JS.of_Z 0).
Proof.
  unfold forecast, mapi. rewrite mapi_from_nth_error.
  destruct (nth_error (firstn 5 (Daily.time (WeatherJson.daily weatherData))) i)
    as [date|]; [|discriminate].
  cbn [option_map Nat.add]. intros [= <-]. cbv zeta.
  cbn [ForecastDay.condition ForecastDay.maxTemp ForecastDay.minTemp].
  unfold JS.index.
  repeat split; intros H;
    try (rewrite (nth_overflow _ _ H); reflexivity);
    rewrite (nth_error_nth _ _ _ H); reflexivity.
Qed.

Lemma forecast_missing_values_witness :
  let ragged : WeatherJson.t :=
    {| WeatherJson.current := WeatherJson.current Sample.weatherData;
       WeatherJson.daily :=
         {| Daily.time := ["2024-05-01"; "2024-05-02"];
            Daily.weather_code := [Sample.num (61 # 1)];
            Daily.temperature_2m_max := [Sample.num (20 # 1); JS.Null];
            Daily.temperature_2m_min := [];
            Daily.sunrise := [];
            Daily.sunset := [] |} |} in
  exists day,
    nth_error (forecast ragged) 1 = Some day
    /\ ForecastDay.condition day = label_thunderstorm
    /\ ForecastDay.maxTemp day = JS.of_Z 0
    /\ ForecastDay.minTemp day = JS.NaN.
Proof.
  cbv zeta. eexists. split; [reflexivity|].
  match goal with
  | |- ForecastDay.condition ?d = _ /\ _ =>
      destruct (forecast_missing_values
                  {| WeatherJson.current := WeatherJson.current Sample.weatherData;
                     WeatherJson.daily :=
                       {| Daily.time := ["2024-05-01"; "2024-05-02"];
                          Daily.weather_code := [Sample.num (61 # 1)];
                          Daily.temperature_2m_max := [Sample.num (20 # 1); JS.Null];
                          Daily.temperature_2m_min := [];
                          Daily.sunrise := [];
                          Daily.sunset := [] |} |} 1 d eq_refl)
        as (Hcode & _ & Hmin & _ & Hmax & _)
  end.
  split; [apply Hcode; cbn; lia|]. split; [apply Hmax; reflexivity|].
  apply Hmin. cbn. lia.
Defined.

(** *** What is selected and listed was looked up *)

Lemma mapi_from_Forall {A B : Type} (P : B -> Prop) (f : A -> nat -> B) (arr : list A) :
  (forall x i, P (f x i)) -> forall start, Forall P (mapi_from start f arr).
Proof.
  intros Hf. induction arr as [|x rest IH]; intros start; cbn [mapi_from];
    constructor; auto.
Qed.

Lemma newLocation_resolved (lat lon : JS.number) (weatherData : WeatherJson.t)
    (addr : Address.t) :
  resolved (newLocation lat lon weatherData addr).
Proof.
  exists (weather weatherData addr), (forecast weatherData).
  split; [reflexivity|]. split; [reflexivity|]. split; [reflexivity|].
  split; [apply locationName_nonempty|].
  split; [unfold forecast, mapi; rewrite mapi_from_length, length_firstn; lia|].
  split; [apply weatherCodeToCondition_label|].
  unfold forecast, mapi. apply mapi_from_Forall.
  intros date i. apply weatherCodeToCondition_label.
Qed.

Lemma record_resolved (h : list LocationData.t) (l : LocationData.t) :
  Forall resolved h -> resolved l -> Forall resolved (record h l).
Proof.
  intros Hh Hl. rewrite record_cons. constructor; [exact Hl|].
  apply Forall_forall. intros e He.
  apply In_firstn, filter_In in He as [He _].
  rewrite Forall_forall in Hh. auto.
Qed.

Lemma settled_step (lat lon : JS.number) (weatherAnswer : reply WeatherJson.t)
    (geoAnswer : reply GeoJson.t) (before : list event) (w : World) :
  let w' := settled lat lon weatherAnswer geoAnswer (with_events before w) in
  untouched w w'
  \/ (resolved (selectedLocation (ui w'))
      /\ recentLocations (ui w') = record (recentLocations (ui w)) (selectedLocation (ui w'))).
Proof.
  cbv zeta. unfold settled.
  destruct (lookup_outcome_of lat lon weatherAnswer geoAnswer) as [wd gd|requests e].
  - right. split; [apply newLocation_resolved|reflexivity].
  - left. split; reflexivity.
Qed.

Lemma handle_step (parseFloat : string -> JS.number) (a : action) (w : World) :
  let w' := snd (handle parseFloat a w) in
  untouched w w'
  \/ (resolved (selectedLocation (ui w'))
      /\ recentLocations (ui w') = record (recentLocations (ui w)) (selectedLocation (ui w'))).
Proof.
  cbv zeta. rewrite handle_settles. cbn [snd].
  assert (Hsame : forall w0, untouched w0 w0) by (intros; split; reflexivity).
  assert (Hidle : forall events,
             untouched w {| ui := idle (ui w); trace := events |})
    by (intros; split; reflexivity).
  destruct a as [wa ga|lat lng wa ga|idx wa ga|value|sa wa ga
                |geolocation|latitude longitude wa ga|code];
    cbn [handle_settled].
  - destruct w as [s t].
    pose proof (settled_step (LocationData.lat (selectedLocation s))
                  (LocationData.lon (selectedLocation s)) wa ga [] {| ui := s; trace := t |})
      as H.
    unfold with_events in H. cbn [ui trace] in H. rewrite app_nil_r in H. exact H.
  - destruct w as [s t].
    pose proof (settled_step lat lng wa ga [] {| ui := s; trace := t |}) as H.
    unfold with_events in H. cbn [ui trace] in H. rewrite app_nil_r in H. exact H.
  - destruct (nth_error (recentLocations (ui w)) idx) as [loc|]; [|left; apply Hsame].
    destruct w as [s t].
    pose proof (settled_step (LocationData.lat loc) (LocationData.lon loc) wa ga []
                  {| ui := s; trace := t |}) as H.
    unfold with_events in H. cbn [ui trace] in H. rewrite app_nil_r in H. exact H.
  - left. split; reflexivity.
  - unfold searchCity_settled.
    destruct (truthy (trim (searchQuery (ui w)))); cbn [negb]; [|left; apply Hsame].
    destruct (well_formed (searchQuery (ui w))); cbn [negb]; [|left; apply Hidle].
    destruct sa as [|[sok [[[|hit hits]|]|]]]; cbn [body]; try (left; apply Hidle).
    apply settled_step.
  - destruct geolocation; cbn [getCurrentLocation_settled]; left; split; reflexivity.
  - destruct w as [s t].
    pose proof (settled_step latitude longitude wa ga [] {| ui := s; trace := t |}) as H.
    unfold with_events in H. cbn [ui trace] in H. rewrite app_nil_r in H. exact H.
  - left. apply Hidle.
Qed.

Lemma handle_selection_resolved (parseFloat : string -> JS.number) (a : action) (w : World) :
  selection_resolved (ui w) -> selection_resolved (ui (snd (handle parseFloat a w))).
Proof.
  intros [Hlist Hsel]. unfold selection_resolved.
  destruct (handle_step parseFloat a w) as [[Hs Hr]|[Hres Hrec]].
  - rewrite Hs, Hr. split; assumption.
  - rewrite Hrec. split; [|right; exact Hres].
    now apply record_resolved.
Qed.

(** X17. Between handlers, every entry of the recent-locations list was
    produced by a lookup, and the selected location is either still the
    built-in start location, with the list still empty, or was produced
    by a lookup as well: such an entry has its weather record and its
    forecast of at most five days, a name that is the record's location
    and not empty, and labels out of the seven condition labels. *)
Theorem selection_is_resolved (parseFloat : string -> JS.number) (actions : list action) :
  selection_resolved (ui (run parseFloat actions initial_world)).
Proof.
  assert (Hgen : forall w, selection_resolved (ui w) ->
                           selection_resolved (ui (run parseFloat actions w))).
  { induction actions as [|a rest IH]; intros w Hw; cbn [run]; [exact Hw|].
    apply IH. now apply handle_selection_resolved. }
  apply Hgen. split; [constructor|]. left. split; reflexivity.
Qed.

(** *** Icons *)

Lemma getWeatherIcon_of_label (toLowerCase : string -> string) :
  (forall label, In label band_labels -> toLowerCase label = label) ->
  getWeatherIcon toLowerCase label_clear = Sun
  /\ getWeatherIcon toLowerCase label_partly_cloudy = Cloud
  /\ getWeatherIcon toLowerCase label_fog = CloudFog
  /\ getWeatherIcon toLowerCase label_rain = CloudRain
  /\ getWeatherIcon toLowerCase label_snow = CloudSnow
  /\ getWeatherIcon toLowerCase label_showers = CloudRain
  /\ getWeatherIcon toLowerCase label_thunderstorm = Cloud.
Proof.
  intros Hfix. unfold getWeatherIcon.
  rewrite !Hfix by (cbn; tauto).
  repeat split; vm_compute; reflexivity.
Qed.

(** X18. The icon shown for a condition label that [weatherCodeToCondition]
    produced (lower-casing leaves these labels as they are): sun for
    clear, the rain cloud for rain and for showers, the snow cloud for
    snow, the fog cloud for fog, and the plain cloud for partly cloudy
    and, by the fallback, for thunderstorm. By integer code: 0 sun, 1-3
    cloud, 4-48 fog, 49-67 rain, 68-77 snow, 78-82 rain, 83-86 snow,
    everything else the plain cloud. *)
Theorem icon_of_condition (toLowerCase : string -> string) :
  (forall label, In label band_labels -> toLowerCase label = label) ->
  (forall code : JS.value,
      let label := weatherCodeToCondition code in
      let icon := getWeatherIcon toLowerCase label in
      (label = label_clear -> icon = Sun)
      /\ (label = label_rain \/ label = label_showers -> icon = CloudRain)
      /\ (label = label_snow -> icon = CloudSnow)
      /\ (label = label_fog -> icon = CloudFog)
      /\ (label = label_partly_cloudy \/ label = label_thunderstorm -> icon = Cloud))
  /\ (forall code : Z,
         getWeatherIcon toLowerCase (weatherCodeToCondition (JS.Num (JS.of_Z code)))
         = icon_of_code code).
Proof.
  intros Hfix.
  destruct (getWeatherIcon_of_label toLowerCase Hfix)
    as (Hclear & Hpartly & Hfog & Hrain & Hsnow & Hshowers & Hthunder).
  split.
  - intros code. cbv zeta.
    repeat split; intros H; repeat (destruct H as [H|H]); rewrite H; assumption.
  - intros code. rewrite weatherCodeToCondition_of_Z.
    unfold band_table, first_band, in_band, band_otherwise, icon_of_code.
    destruct (code =? 0)%Z; [exact Hclear|].
    destruct (code <=? 3)%Z; [exact Hpartly|].
    destruct (code <=? 48)%Z; [exact Hfog|].
    destruct (code <=? 67)%Z; [exact Hrain|].
    destruct (code <=? 77)%Z; [exact Hsnow|].
    destruct (code <=? 82)%Z; [exact Hshowers|].
    destruct (code <=? 86)%Z; [exact Hsnow|exact Hthunder].
Qed.

Lemma icon_of_condition_witness :
  (forall label, In label band_labels -> ascii_toLowerCase label = label)
  /\ getWeatherIcon ascii_toLowerCase (weatherCodeToCondition (JS.Num (JS.of_Z 95))) = Cloud
  /\ getWeatherIcon ascii_toLowerCase (weatherCodeToCondition (JS.Num (JS.of_Z 80)))
     = CloudRain.
Proof.
  assert (Hfix : forall label, In label band_labels -> ascii_toLowerCase label = label).
  { intros label H. cbn in H. decompose [or] H; subst; try reflexivity. contradiction. }
  split; [exact Hfix|].
  destruct (icon_of_condition ascii_toLowerCase Hfix) as [_ Hcode].
  split; apply Hcode.
Defined.

(** *** The weather panel over a run *)

Lemma handle_panel_invariant (parseFloat : string -> JS.number) (a : action) (w : World) :
  (selectedLocation (ui w) = initial_location /\ recentLocations (ui w) = []
   \/ resolved (selectedLocation (ui w)) /\ recentLocations (ui w) <> []) ->
  let w' := snd (handle parseFloat a w) in
  selectedLocation (ui w') = initial_location /\ recentLocations (ui w') = []
  \/ resolved (selectedLocation (ui w')) /\ recentLocations (ui w') <> [].
Proof.
  intros Hinv. cbv zeta.
  destruct (handle_step parseFloat a w) as [[Hs Hr]|[Hres Hrec]].
  - now rewrite Hs, Hr.
  - right. split; [exact Hres|]. rewrite Hrec, record_cons. discriminate.
Qed.

Lemma run_preserves (parseFloat : string -> JS.number) (P : UiState -> Prop) :
  (forall a w, P (ui w) -> P (ui (snd (handle parseFloat a w)))) ->
  forall actions w, P (ui w) -> P (ui (run parseFloat actions w)).
Proof.
  intros Hstep. induction actions as [|a rest IH]; intros w Hw; cbn [run]; [exact Hw|].
  apply IH. now apply Hstep.
Qed.

Lemma handle_keeps_weather (parseFloat : string -> JS.number) (a : action) (w : World) :
  LocationData.weather (selectedLocation (ui w)) <> None ->
  LocationData.weather (selectedLocation (ui (snd (handle parseFloat a w)))) <> None.
Proof.
  intros Hw.
  destruct (handle_step parseFloat a w) as [[Hs _]|[(record & days & Hweather & _) _]].
  - now rewrite Hs.
  - rewrite Hweather. discriminate.
Qed.

Lemma card_iff_weather (s : UiState) :
  (exists sun_times forecast_card, infoPanel s = Card sun_times forecast_card)
  <-> LocationData.weather (selectedLocation s) <> None.
Proof.
  unfold infoPanel.
  destruct (LocationData.weather (selectedLocation s)) as [record|].
  - split; [discriminate|]. eauto.
  - split; [|congruence]. intros (st & fc & H). destruct (loading s); discriminate.
Qed.

(** X19. The weather panel shows a card exactly when the selected
    location is no longer the built-in start location, that is, once a
    lookup has gone through, whatever the loading flag is then; with the
    start location still selected it shows the spinner when the flag is
    raised and nothing when it is lowered. A card once shown stays: no
    later action, failed lookups included, brings back the spinner or
    the blank panel. *)
Theorem panel_card_iff_looked_up (parseFloat : string -> JS.number)
    (actions : list action) (flag : bool) :
  let s := with_loading flag (ui (run parseFloat actions initial_world)) in
  (selectedLocation s = initial_location ->
   infoPanel s = if flag then Spinner else Blank)
  /\ (selectedLocation s <> initial_location ->
      exists sun_times forecast_card, infoPanel s = Card sun_times forecast_card)
  /\ (forall more : list action,
         (exists sun_times forecast_card,
             infoPanel (ui (run parseFloat actions initial_world))
             = Card sun_times forecast_card) ->
         exists sun_times forecast_card,
           infoPanel (ui (run parseFloat (actions ++ more) initial_world))
           = Card sun_times forecast_card).
Proof.
  cbv zeta.
  pose proof (run_preserves parseFloat
                (fun s => selectedLocation s = initial_location /\ recentLocations s = []
                          \/ resolved (selectedLocation s) /\ recentLocations s <> [])
                (handle_panel_invariant parseFloat) actions initial_world
                (or_introl (conj eq_refl eq_refl))) as Hinv.
  cbv beta in Hinv.
  split; [|split].
  - unfold infoPanel, with_loading. cbn [selectedLocation loading].
    intros Hsel. now rewrite Hsel.
  - unfold infoPanel, with_loading. cbn [selectedLocation loading].
    destruct Hinv as [[Hsel _]|[(record & days & Hweather & _) _]]; [congruence|].
    intros _. rewrite Hweather. eauto.
  - intros more Hcard. apply card_iff_weather. apply card_iff_weather in Hcard.
    rewrite run_app.
    exact (run_preserves parseFloat
             (fun s => LocationData.weather (selectedLocation s) <> None)
             (handle_keeps_weather parseFloat) more _ Hcard).
Qed.

Lemma panel_card_iff_looked_up_witness :
  let pending := run Sample.parseFloat [Locate true] initial_world in
  let failed := [MapClick (Sample.coordinate 4) (Sample.coordinate 4)
                          Sample.weather_unavailable Sample.geo_ok] in
  infoPanel (ui pending) = Spinner
  /\ infoPanel (ui (run Sample.parseFloat Sample.busy_session initial_world)) = Card true true
  /\ (exists sun_times forecast_card,
         infoPanel (ui (run Sample.parseFloat (Sample.busy_session ++ failed) initial_world))
         = Card sun_times forecast_card)
  /\ infoPanel (with_loading false (ui (run Sample.parseFloat failed initial_world))) = Blank.
Proof.
  cbv zeta. split; [reflexivity|]. split; [vm_compute; reflexivity|]. split.
  - apply (panel_card_iff_looked_up Sample.parseFloat Sample.busy_session false).
    exists true, true. vm_compute. reflexivity.
  - apply (panel_card_iff_looked_up Sample.parseFloat
             [MapClick (Sample.coordinate 4) (Sample.coordinate 4)
                       Sample.weather_unavailable Sample.geo_ok] false).
    reflexivity.
Defined.
